(** * File-Flattening: the domain / IP enrichment stage

  A shallow embedding of [flattener.py] (thread-pool variant) and
  [flattener2.py] (asyncio / aiodns variant): [extract_domain], the two
  lookups [get_ip] and [get_ip_async], and the two [parallelize_domain_ip]
  functions together with the pandas operations they are built from.

  Conventions.
  - A Python [str] is a [string]; its characters are the bytes of its UTF-8
    encoding.  The pattern only names ASCII characters, and no byte of a
    multi-byte UTF-8 sequence equals an ASCII byte, so matching on bytes
    and matching on code points select the same substrings.
  - A call that may raise returns a value of [Py.result]; [Py.Raise e] is
    the exception travelling up to the caller.
  - The DNS is an argument: a function from a domain to the outcome of the
    library call made by the source ([socket.gethostbyname] in
    [flattener.py], [resolver.gethostbyname] of aiodns in [flattener2.py]).
  - A DataFrame is the list of its rows, in row order. *)

From Stdlib Require Import String Ascii List Bool Arith ZArith Lia Permutation
  Sorted.
Import ListNotations.
Open Scope string_scope.
Open Scope list_scope.

(* ================================================================== *)
(** * Python values, exceptions and the exception monad *)

Module Py.

(** The exception classes the two files can meet.  [GaiError] and
    [SocketTimeout] are [socket.gaierror] and [socket.timeout], the two
    classes named by the handler of [get_ip]; [OSError] is their base
    class raised as such; [UnicodeError] is what the idna codec raises when
    a host name has an empty label or one of more than 63 characters
    ([socket.gethostbyname] encodes its argument with that codec);
    [DNSError] is what aiodns raises for a failed query; [IndexError] is
    raised by [addresses[0]] on an empty answer; [ValueError] is raised by
    [ThreadPoolExecutor] for a non-positive [max_workers];
    [OtherException] is any other subclass of [Exception]. *)
Inductive exn : Type :=
| GaiError
| SocketTimeout
| OSError
| UnicodeError
| DNSError
| IndexError
| ValueError
| OtherException.

Inductive result (A : Type) : Type :=
| Ok (a : A)
| Raise (e : exn).
Arguments Ok {A} a.
Arguments Raise {A} e.

(** What [match.group(1)] can be: a string, or [None] for a group that did
    not take part in the match. *)
Inductive value : Type :=
| Str (s : string)
| NoneV.

(** A computation that makes DNS lookups: the domains it looked up, in the
    order in which the lookups were submitted, and its outcome.  The log
    stops at a lookup whose exception propagates; the statements about the
    log are about runs that return. *)
Definition io (A : Type) : Type := (list string * result A)%type.

Definition ret {A : Type} (a : A) : io A := ([], Ok a).

Definition raise {A : Type} (e : exn) : io A := ([], Raise e).

Definition bind {A B : Type} (m : io A) (f : A -> io B) : io B :=
  match m with
  | (log, Ok a) => let (log', r) := f a in (log ++ log', r)
  | (log, Raise e) => (log, Raise e)
  end.

(** One call of a resolver function on [domain]. *)
Definition lookup {A : Type} (resolver : string -> result A) (domain : string)
  : io A :=
  ([domain], resolver domain).

(** [try: body / except <classes>: handler]. *)
Definition try_except {A : Type} (body : io A) (classes : exn -> bool)
           (handler : io A) : io A :=
  match body with
  | (log, Raise e) =>
      if classes e then let (log', r) := handler in (log ++ log', r)
      else (log, Raise e)
  | _ => body
  end.

(** One call of [f] per element, in order; the results in the same order;
    the first exception in that order propagates. *)
Fixpoint mapM {A B : Type} (f : A -> io B) (xs : list A) : io (list B) :=
  match xs with
  | [] => ret []
  | x :: xs' =>
      bind (f x) (fun y => bind (mapM f xs') (fun ys => ret (y :: ys)))
  end.

End Py.

Notation "x <- m ;; k" := (Py.bind m (fun x => k))
(at level 61, m at next level, right associativity).

(* ================================================================== *)
(** * The fragment of [re] used by the pattern *)

Module Re.

(** One-character items: [LITERAL c] and [NOT_LITERAL c] (the class
    [[^c]], which also accepts a newline). *)
Inductive item : Type :=
| Literal (c : ascii)
| NotLiteral (c : ascii).

Definition item_matches (i : item) (c : ascii) : bool :=
  match i with
  | Literal d => Ascii.eqb d c
  | NotLiteral d => negb (Ascii.eqb d c)
  end.

(** Parsed patterns.  [Optional r] is the greedy [r?]; [OneOrMore i] is the
    greedy [i+] over a one-character item; [Group r] is capturing group 1;
    [(?:...)] groups nothing and is just its body. *)
Inductive regex : Type :=
| Empty
| Item (i : item)
| Concat (r1 r2 : regex)
| Optional (r : regex)
| OneOrMore (i : item)
| Group (r : regex).

(** [literal "abc" r] is the pattern [abc] followed by [r]. *)
Fixpoint literal (p : string) (r : regex) : regex :=
  match p with
  | EmptyString => r
  | String c p' => Concat (Item (Literal c)) (literal p' r)
  end.

(** The text consumed between the input [s] and its suffix [s']. *)
Definition consumed (s s' : string) : string :=
  substring 0 (String.length s - String.length s') s.

(** Greedy repetition, zero or more times, with backtracking: the longest
    run is tried first and given back one character at a time while the
    rest of the pattern (the continuation [k]) fails. *)
Fixpoint greedy {R : Type} (i : item) (s : string) (k : string -> option R)
  : option R :=
  match s with
  | EmptyString => k s
  | String c s' =>
      if item_matches i c then
        match greedy i s' k with
        | Some x => Some x
        | None => k s
        end
      else k s
  end.

(** The backtracking matcher, anchored at the head of [s].  [g] is the
    current content of group 1; [k] is the rest of the pattern. *)
Fixpoint rmatch {R : Type} (r : regex) (s : string) (g : option string)
         (k : string -> option string -> option R) : option R :=
  match r with
  | Empty => k s g
  | Item i =>
      match s with
      | String c s' => if item_matches i c then k s' g else None
      | EmptyString => None
      end
  | Concat r1 r2 => rmatch r1 s g (fun s' g' => rmatch r2 s' g' k)
  | Optional r1 =>
      match rmatch r1 s g k with
      | Some x => Some x
      | None => k s g
      end
  | OneOrMore i =>
      match s with
      | String c s' =>
          if item_matches i c then greedy i s' (fun s'' => k s'' g) else None
      | EmptyString => None
      end
  | Group r1 => rmatch r1 s g (fun s' _ => k s' (Some (consumed s s')))
  end.

(** A match object, reduced to what the source reads from it: group 1. *)
Record match_object : Type := MatchObject { group1 : option string }.

Definition match_here (r : regex) (s : string) : option match_object :=
  rmatch r s None (fun _ g => Some (MatchObject g)).

(** [re.search]: the match at the leftmost position that has one, trying
    the positions 0, 1, ..., len(s) in turn; [None] when there is none. *)
Fixpoint search (r : regex) (s : string) : option match_object :=
  match match_here r s with
  | Some m => Some m
  | None =>
      match s with
      | EmptyString => None
      | String _ s' => search r s'
      end
  end.

(** [m.group(1)]. *)
Definition group (m : match_object) : Py.value :=
  match group1 m with
  | Some s => Py.Str s
  | None => Py.NoneV
  end.

End Re.

(* ================================================================== *)
(** * The pandas operations of the enrichment *)

Module Pandas.

(** A row of the flattened table: the column [infringing_urls], a string,
    and the other columns ([principal_name], [date_sent], ...) by name.
    The enrichment is modelled for tables that do not have a column
    [domain] or [ipaddress] yet, see [no_ipaddress_column]. *)
Record Row : Type := mkRow {
  infringing_urls : string;
  other_columns : list (string * string)
}.

(** No row of the table has a column named [ipaddress].  On a table that
    has one, the merge of the source renames the two [ipaddress] columns
    and the [df['ipaddress']] that follows raises [KeyError]; statements
    about which exceptions can occur take this as a hypothesis. *)
Definition no_ipaddress_column (df : list Row) : Prop :=
  forall r, In r df -> ~ In "ipaddress" (map fst (other_columns r)).

(** A row once [df['domain']] is assigned. *)
Record DomainRow : Type := mkDomainRow {
  row : Row;
  domain : string
}.

(** A row of [unique_domains] once its [ipaddress] column is assigned. *)
Record DomainRecord : Type := mkDomainRecord {
  record_domain : string;
  record_ip : string
}.

(** A row after the merge; [None] is the NaN of a row with no partner. *)
Record MergedRow : Type := mkMergedRow {
  merged_row : DomainRow;
  merged_ip : option string
}.

(** A row of the returned DataFrame. *)
Record EnrichedRow : Type := mkEnrichedRow {
  enriched_row : Row;
  enriched_domain : string;
  ipaddress : string
}.

(** [df[col].apply(f)] assigned to [df['domain']]. *)
Definition assign_domain (f : string -> string) (df : list Row)
  : list DomainRow :=
  map (fun r => mkDomainRow r (f (infringing_urls r))) df.

(** [df[df['domain'] != v]]. *)
Definition where_domain_ne (v : string) (df : list DomainRow)
  : list DomainRow :=
  filter (fun r => negb (String.eqb (domain r) v)) df.

(** [Series.unique()]: the distinct values, in order of first appearance;
    a value is appended when it is not among those already seen. *)
Definition unique_step (seen : list string) (x : string) : list string :=
  if existsb (String.eqb x) seen then seen else seen ++ [x].

Definition unique (xs : list string) : list string :=
  fold_left unique_step xs [].

(** [unique_domains['ipaddress'] = values]: the lengths must agree. *)
Definition assign_ipaddress (unique_domains values : list string)
  : Py.io (list DomainRecord) :=
  if Nat.eqb (List.length values) (List.length unique_domains) then
    Py.ret (map (fun p => mkDomainRecord (fst p) (snd p))
                (combine unique_domains values))
  else Py.raise Py.ValueError.

(** [df.merge(right, how='left', on='domain')]: the left rows in their
    order, each one once per right row with the same key, in the order of
    the right rows, and once with NaN when there is none. *)
Definition merge_left (df : list DomainRow) (right : list DomainRecord)
  : list MergedRow :=
  flat_map
    (fun l =>
       match filter (fun r => String.eqb (record_domain r) (domain l)) right with
       | [] => [mkMergedRow l None]
       | partners => map (fun r => mkMergedRow l (Some (record_ip r))) partners
       end)
    df.

(** [df['ipaddress'] = df['ipaddress'].fillna(v)]. *)
Definition fillna_ipaddress (v : string) (df : list MergedRow)
  : list EnrichedRow :=
  map (fun m =>
         mkEnrichedRow (row (merged_row m)) (domain (merged_row m))
           (match merged_ip m with
            | Some ip => ip
            | None => v
            end))
      df.

End Pandas.

(* ================================================================== *)
(** * flattener.py: the thread-pool variant *)

Module Flattener.
Import Re Pandas.

(** [r"https?://(?:www\.)?([^/]+)"] *)
Definition pattern : regex :=
  literal "http"
    (Concat (Optional (Item (Literal "s")))
       (literal "://"
          (Concat (Optional (literal "www." Empty))
             (Group (OneOrMore (NotLiteral "/")))))).

(** The value [extract_domain] returns. *)
Definition extract_domain_value (url : string) : Py.value :=
  match search pattern url with
  | Some m => group m
  | None => Py.Str "NA"
  end.

(** The same as a string.  Group 1 takes part in every match of the
    pattern, so the [NoneV] branch is never taken; this is proved with the
    totality of the extractor below. *)
Definition extract_domain (url : string) : string :=
  match extract_domain_value url with
  | Py.Str s => s
  | Py.NoneV => EmptyString
  end.

(** [except (socket.gaierror, socket.timeout)] *)
Definition gaierror_or_timeout (e : Py.exn) : bool :=
  match e with
  | Py.GaiError | Py.SocketTimeout => true
  | _ => false
  end.

Definition get_ip (gethostbyname : string -> Py.result string)
           (domain : string) : Py.io string :=
  Py.try_except (Py.lookup gethostbyname domain)
                gaierror_or_timeout
                (Py.ret "NA").

(** [with ThreadPoolExecutor(max_workers=n) as executor:
       list(executor.map(f, xs))]: the constructor refuses [n <= 0]; the
    results come in the order of [xs], and the first exception in that
    order is the one raised.  On a run in which a lookup raises, which of
    the other lookups were started depends on the scheduling and on [n];
    the log of such a run is not meant to say. *)
Definition executor_map {A B : Type} (max_workers : Z) (f : A -> Py.io B)
           (xs : list A) : Py.io (list B) :=
  if (max_workers <=? 0)%Z then Py.raise Py.ValueError
  else Py.mapM f xs.

(** The default of the parameter [num_workers]. *)
Definition default_num_workers : Z := 100.

(** [df.reset_index(drop=True)] renumbers the rows and leaves the list of
    rows as it is; the [print] calls and the timing do not act on the
    result. *)
Definition parallelize_domain_ip
           (gethostbyname : string -> Py.result string)
           (df : list Row) (num_workers : Z) : Py.io (list EnrichedRow) :=
  let df := assign_domain extract_domain df in
  let df := where_domain_ne "NA" df in
  let unique_domains := unique (map domain df) in
  ips <- executor_map num_workers (get_ip gethostbyname) unique_domains ;;
  unique_domains <- assign_ipaddress unique_domains ips ;;
  let df := merge_left df unique_domains in
  Py.ret (fillna_ipaddress "NA" df).

End Flattener.

(* ================================================================== *)
(** * flattener2.py: the asyncio / aiodns variant *)

Module Flattener2.
Import Re Pandas.

(** [r"https?://(?:www\.)?([^/]+)"] *)
Definition pattern : regex :=
  literal "http"
    (Concat (Optional (Item (Literal "s")))
       (literal "://"
          (Concat (Optional (literal "www." Empty))
             (Group (OneOrMore (NotLiteral "/")))))).

Definition extract_domain_value (url : string) : Py.value :=
  match search pattern url with
  | Some m => group m
  | None => Py.Str "NA"
  end.

Definition extract_domain (url : string) : string :=
  match extract_domain_value url with
  | Py.Str s => s
  | Py.NoneV => EmptyString
  end.

(** The answer of [resolver.gethostbyname(domain, socket.AF_INET)]. *)
Record host_result : Type := HostResult { addresses : list string }.

(** [except Exception] *)
Definition any_exception (e : Py.exn) : bool := true.

Definition get_ip_async (gethostbyname : string -> Py.result host_result)
           (domain : string) : Py.io string :=
  Py.try_except
    (result <- Py.lookup gethostbyname domain ;;
     match addresses result with
     | ip :: _ => Py.ret ip
     | [] => Py.raise Py.IndexError
     end)
    any_exception
    (Py.ret "NA").

(** [await asyncio.gather( *tasks )] over one task per domain: the results
    in the order of the tasks. *)
Definition resolve_ips_async (gethostbyname : string -> Py.result host_result)
           (unique_domains : list string) : Py.io (list DomainRecord) :=
  ips <- Py.mapM (get_ip_async gethostbyname) unique_domains ;;
  assign_ipaddress unique_domains ips.

Definition parallelize_domain_ip
           (gethostbyname : string -> Py.result host_result)
           (df : list Row) : Py.io (list EnrichedRow) :=
  let df := assign_domain extract_domain df in
  let df := where_domain_ne "NA" df in
  let unique_domains := unique (map domain df) in
  unique_domains <- resolve_ips_async gethostbyname unique_domains ;;
  let df := merge_left df unique_domains in
  Py.ret (fillna_ipaddress "NA" df).

End Flattener2.

(* ================================================================== *)
(** * Lookup outcomes and the closed form of the enrichment *)

Module Outcome.
Import Pandas.

(** What [get_ip] returns for an outcome of [socket.gethostbyname] that
    its handler covers. *)
Definition answer (gethostbyname : string -> Py.result string)
           (domain : string) : string :=
  match gethostbyname domain with
  | Py.Ok ip => ip
  | Py.Raise _ => "NA"
  end.

(** What [get_ip_async] returns. *)
Definition answer_async
           (gethostbyname : string -> Py.result Flattener2.host_result)
           (domain : string) : string :=
  match gethostbyname domain with
  | Py.Ok (Flattener2.HostResult (ip :: _)) => ip
  | _ => "NA"
  end.

(** Every lookup for a domain of [domains] either answers or raises one
    of the two classes [get_ip] handles. *)
Definition handled (gethostbyname : string -> Py.result string)
           (domains : list string) : Prop :=
  forall (d : string) (e : Py.exn),
    In d domains -> gethostbyname d = Py.Raise e ->
    Flattener.gaierror_or_timeout e = true.

(** Every lookup for a domain of [domains] fails with a name-resolution
    error or a timeout. *)
Definition all_fail (gethostbyname : string -> Py.result string)
           (domains : list string) : Prop :=
  forall d : string,
    In d domains ->
    exists e : Py.exn,
      gethostbyname d = Py.Raise e /\
      Flattener.gaierror_or_timeout e = true.

Definition all_fail_async
           (gethostbyname : string -> Py.result Flattener2.host_result)
           (domains : list string) : Prop :=
  forall d : string,
    In d domains -> exists e : Py.exn, gethostbyname d = Py.Raise e.

(** The two resolvers give the same outcome for a domain: the same first
    address, or a failure on both sides. *)
Inductive same_outcome :
  Py.result string -> Py.result Flattener2.host_result -> Prop :=
| same_address (ip : string) (others : list string) :
    same_outcome (Py.Ok ip) (Py.Ok (Flattener2.HostResult (ip :: others)))
| same_failure (e e' : Py.exn) :
    Flattener.gaierror_or_timeout e = true ->
    same_outcome (Py.Raise e) (Py.Raise e')
| same_failure_empty (e : Py.exn) :
    Flattener.gaierror_or_timeout e = true ->
    same_outcome (Py.Raise e) (Py.Ok (Flattener2.HostResult [])).

(** The rows that survive [df[df['domain'] != 'NA']]. *)
Definition keeps (r : Row) : bool :=
  negb (String.eqb (Flattener.extract_domain (infringing_urls r)) "NA").

Definition row_domain (r : Row) : string :=
  Flattener.extract_domain (infringing_urls r).

(** The domains of the surviving rows, one per row. *)
Definition row_domains (df : list Row) : list string :=
  map row_domain (filter keeps df).

(** The enriched frame, given the answer for each domain. *)
Definition enrich (ip_of : string -> string) (df : list Row)
  : list EnrichedRow :=
  map (fun r => mkEnrichedRow r (row_domain r) (ip_of (row_domain r)))
      (filter keeps df).

(** The mapping [unique_domains] holds after resolution. *)
Definition records (ip_of : string -> string) (domains : list string)
  : list DomainRecord :=
  map (fun d => mkDomainRecord d (ip_of d)) domains.

Definition NA (_ : string) : string := "NA".

End Outcome.

(* ================================================================== *)
(** * Concrete tables and resolvers *)

Module Scenario.
Import Pandas.

(** Three rows around one URL without a scheme; [a.test] resolves to
    [1.2.3.4] and nothing else resolves. *)
Definition rows : list Row :=
  [ mkRow "https://a.test/1" [("principal_name", "P")];
    mkRow "bad" [("principal_name", "Q")];
    mkRow "https://a.test/2" [("principal_name", "P")] ].

Definition gethostbyname (domain : string) : Py.result string :=
  if String.eqb domain "a.test" then Py.Ok "1.2.3.4"
  else Py.Raise Py.GaiError.

Definition gethostbyname_async (domain : string)
  : Py.result Flattener2.host_result :=
  if String.eqb domain "a.test"
  then Py.Ok (Flattener2.HostResult ["1.2.3.4"])
  else Py.Raise Py.DNSError.

(** Nothing resolves. *)
Definition nxdomain (domain : string) : Py.result string :=
  Py.Raise Py.GaiError.

Definition nxdomain_async (domain : string)
  : Py.result Flattener2.host_result :=
  Py.Raise Py.DNSError.

(** A table with a host name that has an empty label.  The idna codec
    refuses [a..b], so that [socket.gethostbyname] raises [UnicodeError]
    for it; the aiodns resolver fails for it as for any unknown name. *)
Definition rows_empty_label : list Row :=
  [ mkRow "https://a.test/1" []; mkRow "http://a..b/x" [] ].

Definition gethostbyname_idna (domain : string) : Py.result string :=
  if String.eqb domain "a..b" then Py.Raise Py.UnicodeError
  else gethostbyname domain.




End Scenario.

(* ================================================================== *)
(** * summarize_data, the same function in both files *)

Module Summary.

(** The four columns [summarize_data] reads.  [domain] and
    [copyrighted_urls] hold strings; [date_sent] and [principal_name] may
    be missing (NaN), which is [None]. *)
Record Notice : Type := mkNotice {
  domain : string;
  copyrighted_urls : string;
  date_sent : option string;
  principal_name : option string
}.

(** The values of a column that are not missing. *)
Definition present {K : Type} (column : list (option K)) : list K :=
  flat_map (fun v => match v with Some k => [k] | None => [] end) column.

(** The distinct values of a list, in order of first appearance. *)
Definition distinct {K : Type} (eqb : K -> K -> bool) (xs : list K) : list K :=
  fold_left (fun seen x => if existsb (eqb x) seen then seen else seen ++ [x])
            xs [].

(** The keys of a groupby are sorted in ascending order; on distinct keys
    every sorting method gives this list. *)
Fixpoint insert_key {K : Type} (leb : K -> K -> bool) (k : K) (ks : list K)
  : list K :=
  match ks with
  | [] => [k]
  | h :: t => if leb k h then k :: ks else h :: insert_key leb k t
  end.

Definition sort_keys {K : Type} (leb : K -> K -> bool) (ks : list K) : list K :=
  fold_right (insert_key leb) [] ks.

Definition has_key {A K : Type} (eqb : K -> K -> bool) (key : A -> option K)
           (k : K) (r : A) : bool :=
  match key r with
  | Some k' => eqb k' k
  | None => false
  end.

(** [df.groupby(column)]: one group per value of the column, the missing
    value left out, the groups by ascending key, each with its rows in
    table order. *)
Definition groupby {A K : Type} (eqb leb : K -> K -> bool)
           (key : A -> option K) (df : list A) : list (K * list A) :=
  map (fun k => (k, filter (has_key eqb key k) df))
      (sort_keys leb (distinct eqb (present (map key df)))).

(** [len(set(x))] and ['nunique'] on a column of strings. *)
Definition nunique (xs : list string) : nat :=
  List.length (distinct String.eqb xs).

Record DomainSummary : Type := mkDomainSummary {
  summary_domain : string;
  domain_notice_count : nat;
  unique_copyrighted_urls : nat
}.

Record DateCount : Type := mkDateCount {
  date : Z;
  date_notice_count : nat
}.

Record HolderSummary : Type := mkHolderSummary {
  holder : string;
  holder_notice_count : nat;
  top_infringing_domain : string;
  unique_infringing_domains : nat
}.

Section Library.

(** Three library calls whose result the source does not determine:
    [sort_values(by=count, ascending=False)], whose order among equal counts
    depends on the sorting method; [x.value_counts().idxmax()], which picks
    one of the most frequent values; and [pd.to_datetime] on a column, which
    gives a time stamp or NaT per entry, or raises. *)
Variable sort_values : forall A : Type, (A -> nat) -> list A -> list A.
Variable idxmax_of_counts : list string -> string.
Variable to_datetime : list (option string) -> Py.result (list (option Z)).

Definition top_domains (df : list Notice) : list DomainSummary :=
  firstn 10
    (sort_values _ domain_notice_count
       (map (fun g => mkDomainSummary
                        (fst g)
                        (List.length (snd g))
                        (nunique (map copyrighted_urls (snd g))))
            (groupby String.eqb String.leb (fun r => Some (domain r)) df))).

(** The table after [df['date_sent'] = pd.to_datetime(df['date_sent'])],
    grouped by date and counted.  (The assignment also changes the column
    in the caller's table; the three tables returned do not depend on
    that.) *)
Definition time_distribution (df : list Notice) (dates : list (option Z))
  : list DateCount :=
  map (fun g => mkDateCount (fst g) (List.length (snd g)))
      (groupby Z.eqb Z.leb snd (combine df dates)).

Definition top_copyright_holders (df : list Notice) : list HolderSummary :=
  firstn 20
    (sort_values _ holder_notice_count
       (map (fun g => mkHolderSummary
                        (fst g)
                        (List.length (snd g))
                        (idxmax_of_counts (map domain (snd g)))
                        (nunique (map domain (snd g))))
            (groupby String.eqb String.leb principal_name df))).

Definition summarize_data (df : list Notice)
  : Py.result (list DomainSummary * list DateCount * list HolderSummary) :=
  let top := top_domains df in
  match to_datetime (map date_sent df) with
  | Py.Raise e => Py.Raise e
  | Py.Ok dates =>
      Py.Ok (top, time_distribution df dates, top_copyright_holders df)
  end.

End Library.

(** What the statements take for granted of the three library calls. *)
Definition sorts_descending
           (sort_values : forall A : Type, (A -> nat) -> list A -> list A)
  : Prop :=
  forall (A : Type) (key : A -> nat) (l : list A),
    Permutation (sort_values A key l) l /\
    StronglySorted (fun a b => key b <= key a) (sort_values A key l).

Definition picks_most_frequent (idxmax_of_counts : list string -> string)
  : Prop :=
  forall l : list string,
    l <> [] ->
    In (idxmax_of_counts l) l /\
    forall x, count_occ string_dec l x
              <= count_occ string_dec l (idxmax_of_counts l).

Definition keeps_length
           (to_datetime : list (option string) -> Py.result (list (option Z)))
  : Prop :=
  forall column dates,
    to_datetime column = Py.Ok dates ->
    List.length dates = List.length column.

(** The number of rows of [df] with the given domain, holder or date. *)
Definition rows_of_domain (d : string) (df : list Notice) : nat :=
  List.length (filter (fun r => String.eqb (domain r) d) df).

Definition rows_of_holder (p : string) (df : list Notice) : list Notice :=
  filter (has_key String.eqb principal_name p) df.

(** Some row of the table has a [principal_name].  How pandas aggregates
    with a Python function when there is no group at all is left open; the
    statements about the holders are about tables with a holder. *)
Definition has_holder (df : list Notice) : Prop :=
  exists r p, In r df /\ principal_name r = Some p.

(** One way to make the three calls, for concrete tables: a stable
    insertion sort, the first of the most frequent values, and a calendar
    of known dates. *)
Fixpoint insert_descending {A : Type} (key : A -> nat) (x : A) (l : list A)
  : list A :=
  match l with
  | [] => [x]
  | y :: t =>
      if Nat.ltb (key y) (key x) then x :: l
      else y :: insert_descending key x t
  end.

Definition stable_sort_descending (A : Type) (key : A -> nat) (l : list A)
  : list A :=
  fold_right (insert_descending key) [] l.

Definition first_most_frequent (l : list string) : string :=
  match l with
  | [] => EmptyString
  | x :: t =>
      fold_left
        (fun best y =>
           if Nat.ltb (count_occ string_dec l best) (count_occ string_dec l y)
           then y else best)
        t x
  end.

Definition calendar_date (s : string) : Py.result (option Z) :=
  if String.eqb s "" then Py.Ok None
  else if String.eqb s "2024-01-01" then Py.Ok (Some 20240101%Z)
  else if String.eqb s "2024-01-02" then Py.Ok (Some 20240102%Z)
  else Py.Raise Py.ValueError.

Fixpoint calendar (column : list (option string))
  : Py.result (list (option Z)) :=
  match column with
  | [] => Py.Ok []
  | v :: rest =>
      match match v with Some s => calendar_date s | None => Py.Ok None end with
      | Py.Raise e => Py.Raise e
      | Py.Ok d =>
          match calendar rest with
          | Py.Raise e => Py.Raise e
          | Py.Ok ds => Py.Ok (d :: ds)
          end
      end
  end.

Definition notices : list Notice :=
  [ mkNotice "a.test" "http://c/1" (Some "2024-01-02") (Some "P");
    mkNotice "b.test" "http://c/1" (Some "2024-01-01") (Some "P");
    mkNotice "a.test" "http://c/2" (Some "2024-01-02") (Some "Q");
    mkNotice "a.test" "http://c/1" (Some "") None ].

End Summary.

(* ================================================================== *)
(** * Vocabulary of the statements *)

Module Url.

Definition scheme (secure : bool) : string :=
  if secure then "https" else "http".

Definition www_prefix (www : bool) : string :=
  if www then "www." else "".

(** [s] is [p] followed by the result. *)
Fixpoint strip_prefix (p s : string) : option string :=
  match p with
  | EmptyString => Some s
  | String c p' =>
      match s with
      | String d s' => if Ascii.eqb c d then strip_prefix p' s' else None
      | EmptyString => None
      end
  end.

Fixpoint no_slash (s : string) : Prop :=
  match s with
  | EmptyString => True
  | String c s' => c <> "/"%char /\ no_slash s'
  end.

(** What may follow a host: the end of the string, or a ['/']. *)
Definition ends_host (tail : string) : Prop :=
  match tail with
  | EmptyString => True
  | String c _ => c = "/"%char
  end.

(** The longest prefix of [s] without ['/'], and what follows it. *)
Fixpoint run (s : string) : string :=
  match s with
  | EmptyString => EmptyString
  | String c s' => if Ascii.eqb "/" c then EmptyString else String c (run s')
  end.

Fixpoint after_run (s : string) : string :=
  match s with
  | EmptyString => EmptyString
  | String c s' => if Ascii.eqb "/" c then s else after_run s'
  end.

(** [t] starts with [http://] or [https://] and then a character that is
    not ['/']. *)
Definition occurrence_at (t : string) : Prop :=
  exists (secure : bool) (c : ascii) (rest : string),
    c <> "/"%char /\ t = (scheme secure ++ "://" ++ String c rest)%string.

(** Some suffix of [s] is such an occurrence. *)
Definition has_occurrence (s : string) : Prop :=
  exists pre t : string, s = (pre ++ t)%string /\ occurrence_at t.

(** No occurrence starts inside [pre] when [pre] is followed by [t]. *)
Definition first_at (pre t : string) : Prop :=
  forall p1 p2 : string,
    pre = (p1 ++ p2)%string -> p2 <> EmptyString ->
    ~ occurrence_at (p2 ++ t)%string.

(** A host that does not itself start with a [www.] the pattern strips. *)
Definition bare (host : string) : Prop :=
  forall h : string, h <> EmptyString -> host <> ("www." ++ h)%string.

(** The host found right at the head of [s]: a non-empty run without
    ['/']. *)
Definition host_plain (s : string) : option string :=
  match run s with
  | EmptyString => None
  | h => Some h
  end.

(** The same after the optional [www.], which is given back when nothing
    but a ['/'] or the end follows it. *)
Definition host_at (s : string) : option string :=
  match strip_prefix "www." s with
  | Some s' =>
      match host_plain s' with
      | Some h => Some h
      | None => host_plain s
      end
  | None => host_plain s
  end.

(** What follows [http://] or [https://] at the head of [s]. *)
Definition after_scheme (s : string) : option string :=
  match strip_prefix "http" s with
  | Some s1 =>
      match strip_prefix "s" s1 with
      | Some s2 => strip_prefix "://" s2
      | None => strip_prefix "://" s1
      end
  | None => None
  end.

End Url.

(* ================================================================== *)
(** * Strings *)

#[local] Arguments Ascii.eqb : simpl never.

Section StringFacts.
Local Open Scope string_scope.

Lemma append_nil_r (s : string) : s ++ "" = s.
Proof. induction s as [|c s IH]; simpl; [reflexivity | now rewrite IH]. Qed.

Lemma append_assoc (a b c : string) : (a ++ b) ++ c = a ++ (b ++ c).
Proof. induction a as [|x a IH]; simpl; [reflexivity | now rewrite IH]. Qed.

Lemma length_append (a b : string) :
  String.length (a ++ b) = String.length a + String.length b.
Proof. induction a as [|x a IH]; simpl; [reflexivity | now rewrite IH]. Qed.

Lemma substring_prefix (a b : string) :
  substring 0 (String.length a) (a ++ b) = a.
Proof.
  induction a as [|x a IH]; simpl.
  - destruct b; reflexivity.
  - now rewrite IH.
Qed.

Lemma consumed_append (a b : string) : Re.consumed (a ++ b) b = a.
Proof.
  unfold Re.consumed. rewrite length_append.
  replace (String.length a + String.length b - String.length b)
    with (String.length a) by lia.
  apply substring_prefix.
Qed.

Lemma run_after_run (s : string) : Url.run s ++ Url.after_run s = s.
Proof.
  induction s as [|c s IH]; simpl; [reflexivity|].
  destruct (Ascii.eqb "/" c); simpl; [reflexivity | now rewrite IH].
Qed.

Lemma no_slash_run (s : string) : Url.no_slash (Url.run s).
Proof.
  induction s as [|c s IH]; simpl; [exact I|].
  destruct (Ascii.eqb_spec "/" c) as [E|N]; simpl; [exact I|].
  split; [congruence | exact IH].
Qed.

Lemma ends_host_after_run (s : string) : Url.ends_host (Url.after_run s).
Proof.
  induction s as [|c s IH]; simpl; [exact I|].
  destruct (Ascii.eqb_spec "/" c) as [E|N]; simpl; [congruence | exact IH].
Qed.

Lemma run_append (h tail : string) :
  Url.no_slash h -> Url.ends_host tail -> Url.run (h ++ tail) = h.
Proof.
  intros Hh Ht. induction h as [|c h IH]; simpl in *.
  - destruct tail as [|d tail]; simpl in *; [reflexivity|].
    subst d. reflexivity.
  - destruct Hh as [Hc Hh].
    destruct (Ascii.eqb_spec "/" c) as [E|N]; [congruence|].
    now rewrite IH.
Qed.

Lemma strip_prefix_append (p s : string) :
  Url.strip_prefix p (p ++ s) = Some s.
Proof.
  induction p as [|c p IH]; simpl; [reflexivity|].
  now rewrite Ascii.eqb_refl.
Qed.

Lemma strip_prefix_Some (p s t : string) :
  Url.strip_prefix p s = Some t -> s = p ++ t.
Proof.
  revert s. induction p as [|c p IH]; simpl; intros s H.
  - congruence.
  - destruct s as [|d s]; [discriminate|].
    destruct (Ascii.eqb_spec c d) as [E|N]; [|discriminate].
    subst d. now rewrite (IH _ H).
Qed.

End StringFacts.

(* ================================================================== *)
(** * What the pattern matches *)

Section PatternFacts.
Local Open Scope string_scope.
Import Re Url.

Lemma rmatch_literal {R : Type} (p : string) (r : regex) (s : string)
      (g : option string) (k : string -> option string -> option R) :
  rmatch (literal p r) s g k =
  match strip_prefix p s with
  | Some s' => rmatch r s' g k
  | None => None
  end.
Proof.
  revert s. induction p as [|c p IH]; intros s; simpl; [reflexivity|].
  destruct s as [|d s]; [reflexivity|].
  destruct (Ascii.eqb c d); [apply IH | reflexivity].
Qed.

Lemma greedy_longest {R : Type} (s : string) (k : string -> option R) (x : R) :
  k (after_run s) = Some x -> greedy (NotLiteral "/") s k = Some x.
Proof.
  induction s as [|c s IH]; simpl; intros H; [exact H|].
  destruct (Ascii.eqb "/" c); simpl; [exact H|].
  now rewrite (IH H).
Qed.

Lemma rmatch_host (s : string) (g : option string) :
  rmatch (Group (OneOrMore (NotLiteral "/"))) s g
         (fun _ g' => Some (MatchObject g')) =
  option_map (fun h => MatchObject (Some h)) (host_plain s).
Proof.
  unfold host_plain. destruct s as [|c s]; simpl; [reflexivity|].
  destruct (Ascii.eqb "/" c) eqn:E; simpl; [reflexivity|].
  erewrite greedy_longest; [reflexivity|].
  simpl. do 3 f_equal.
  pose proof (consumed_append (String c (run s)) (after_run s)) as H.
  simpl in H. now rewrite run_after_run in H.
Qed.

Lemma rmatch_empty {R : Type} (s : string) (g : option string)
      (k : string -> option string -> option R) :
  rmatch Empty s g k = k s g.
Proof. reflexivity. Qed.

Lemma rmatch_concat {R : Type} (r1 r2 : regex) (s : string)
      (g : option string) (k : string -> option string -> option R) :
  rmatch (Concat r1 r2) s g k =
  rmatch r1 s g (fun s' g' => rmatch r2 s' g' k).
Proof. reflexivity. Qed.

Lemma rmatch_optional {R : Type} (r : regex) (s : string)
      (g : option string) (k : string -> option string -> option R) :
  rmatch (Optional r) s g k =
  match rmatch r s g k with
  | Some x => Some x
  | None => k s g
  end.
Proof. reflexivity. Qed.

Lemma rmatch_item {R : Type} (i : item) (s : string)
      (g : option string) (k : string -> option string -> option R) :
  rmatch (Item i) s g k =
  match s with
  | String c s' => if item_matches i c then k s' g else None
  | EmptyString => None
  end.
Proof. reflexivity. Qed.

Lemma rmatch_www_host (s : string) (g : option string) :
  rmatch (Concat (Optional (literal "www." Empty))
                 (Group (OneOrMore (NotLiteral "/")))) s g
         (fun _ g' => Some (MatchObject g')) =
  option_map (fun h => MatchObject (Some h)) (host_at s).
Proof.
  unfold host_at.
  rewrite rmatch_concat, rmatch_optional, rmatch_literal.
  destruct (strip_prefix "www." s) as [s'|].
  - rewrite rmatch_empty, !rmatch_host.
    destruct (host_plain s'); reflexivity.
  - apply rmatch_host.
Qed.

Lemma match_here_pattern (s : string) :
  match_here Flattener.pattern s =
  match after_scheme s with
  | Some s' => option_map (fun h => MatchObject (Some h)) (host_at s')
  | None => None
  end.
Proof.
  unfold match_here, Flattener.pattern, after_scheme.
  rewrite rmatch_literal.
  destruct (strip_prefix "http" s) as [s1|]; [|reflexivity].
  rewrite rmatch_concat, rmatch_optional, rmatch_item, !rmatch_literal.
  destruct s1 as [|c s1]; [reflexivity|].
  change (strip_prefix "s" (String c s1))
    with (if Ascii.eqb "s" c then Some s1 else @None string).
  cbn [item_matches].
  destruct (Ascii.eqb_spec "s" c) as [E|N].
  - subst c. rewrite rmatch_literal.
    assert (H : strip_prefix "://" (String "s" s1) = None) by reflexivity.
    rewrite H.
    destruct (strip_prefix "://" s1) as [s2|]; [|reflexivity].
    rewrite rmatch_www_host. destruct (host_at s2); reflexivity.
  - destruct (strip_prefix "://" (String c s1)) as [s2|]; [|reflexivity].
    apply rmatch_www_host.
Qed.

Lemma run_prefix (p s : string) : no_slash p -> run (p ++ s) = p ++ run s.
Proof.
  induction p as [|c p IH]; simpl; intros H; [reflexivity|].
  destruct H as [Hc Hp].
  destruct (Ascii.eqb_spec "/" c) as [E|N]; [congruence|].
  now rewrite IH.
Qed.

Lemma run_empty (s : string) : run s = "" <-> ends_host s.
Proof.
  destruct s as [|c s]; simpl; [tauto|].
  destruct (Ascii.eqb_spec "/" c) as [E|N]; split; intros H;
    try congruence; try reflexivity; try discriminate.
Qed.

Lemma host_plain_None (s : string) : host_plain s = None <-> ends_host s.
Proof.
  unfold host_plain. rewrite <- run_empty.
  destruct (run s); split; intros H; congruence.
Qed.

Lemma host_plain_run (s h : string) :
  host_plain s = Some h -> run s = h /\ h <> "".
Proof.
  unfold host_plain. intros H.
  destruct (run s); [discriminate|]. injection H as <-.
  split; [reflexivity | discriminate].
Qed.

Lemma host_plain_append (host tail : string) :
  host <> "" -> no_slash host -> ends_host tail ->
  host_plain (host ++ tail) = Some host.
Proof.
  intros Hne Hh Ht. unfold host_plain. rewrite (run_append _ _ Hh Ht).
  destruct host; congruence.
Qed.

Lemma host_plain_Some (s h : string) :
  host_plain s = Some h ->
  h <> "" /\ no_slash h /\ exists tail, s = h ++ tail /\ ends_host tail.
Proof.
  unfold host_plain. intros H.
  assert (E : run s = h) by (destruct (run s); congruence).
  split; [destruct (run s); congruence|].
  split; [rewrite <- E; apply no_slash_run|].
  exists (after_run s). split.
  - rewrite <- E. symmetry. apply run_after_run.
  - apply ends_host_after_run.
Qed.

Lemma host_at_None (s : string) : host_at s = None <-> ends_host s.
Proof.
  unfold host_at. split.
  - intros H. apply host_plain_None.
    destruct (strip_prefix "www." s) as [s'|]; [|exact H].
    destruct (host_plain s'); [discriminate | exact H].
  - intros H.
    assert (E : strip_prefix "www." s = None).
    { destruct s as [|c s]; [reflexivity|]. simpl in H. subst c. reflexivity. }
    rewrite E. now apply host_plain_None.
Qed.

Lemma host_at_form (www : bool) (host tail : string) :
  host <> "" -> no_slash host -> ends_host tail ->
  (www = false -> bare host) ->
  host_at (www_prefix www ++ host ++ tail) = Some host.
Proof.
  intros Hne Hh Ht Hb. unfold host_at.
  destruct www; unfold www_prefix.
  - rewrite strip_prefix_append, host_plain_append; auto.
  - change ("" ++ host ++ tail) with (host ++ tail).
    rewrite (host_plain_append _ _ Hne Hh Ht).
    destruct (strip_prefix "www." (host ++ tail)) as [s'|] eqn:E;
      [|reflexivity].
    destruct (host_plain s') as [h|] eqn:E'; [|reflexivity].
    exfalso.
    apply strip_prefix_Some in E.
    apply host_plain_run in E'. destruct E' as [Er Hh1].
    assert (R : run (host ++ tail) = "www." ++ run s').
    { rewrite E. apply (run_prefix "www."). simpl.
      repeat split; intros D; discriminate D. }
    rewrite (run_append _ _ Hh Ht), Er in R.
    exact (Hb eq_refl _ Hh1 R).
Qed.

Lemma strip_www_bare (s h tail : string) :
  strip_prefix "www." s = None -> s = h ++ tail -> bare h.
Proof.
  intros E -> h' _ ->. rewrite append_assoc, strip_prefix_append in E.
  discriminate.
Qed.

Lemma host_at_Some (s h : string) :
  host_at s = Some h ->
  h <> "" /\ no_slash h /\
  exists (www : bool) (tail : string),
    s = www_prefix www ++ h ++ tail /\ ends_host tail /\
    (www = false -> bare h).
Proof.
  unfold host_at. intros H.
  destruct (strip_prefix "www." s) as [s'|] eqn:E.
  - destruct (host_plain s') as [h'|] eqn:E'.
    + injection H as ->. apply strip_prefix_Some in E.
      destruct (host_plain_Some _ _ E') as (H1 & H2 & tail & -> & H3).
      repeat split; auto. exists true, tail.
      repeat split; [exact E | exact H3 | discriminate].
    + destruct (host_plain_run _ _ H) as [Hr _].
      destruct (host_plain_Some _ _ H) as (H1 & H2 & tail & -> & H3).
      repeat split; auto. exists false, tail.
      repeat split; [exact H3|]. intros _ h' Hh' ->.
      apply strip_prefix_Some in E. apply host_plain_None in E'.
      rewrite append_assoc in E.
      assert (E2 : s' = h' ++ tail).
      { change ("www." ++ h' ++ tail) with
          (String "w" (String "w" (String "w" (String "." (h' ++ tail))))) in E.
        change ("www." ++ s') with
          (String "w" (String "w" (String "w" (String "." s')))) in E.
        congruence. }
      subst s'. destruct h' as [|c h']; [congruence|].
      simpl in E', H2. destruct H2 as (_ & _ & _ & _ & H2 & _). contradiction.
  - destruct (host_plain_Some _ _ H) as (H1 & H2 & tail & Hs & H3).
    repeat split; auto. exists false, tail.
    repeat split; [exact Hs | exact H3|].
    intros _. exact (strip_www_bare _ _ _ E Hs).
Qed.

Lemma after_scheme_scheme (secure : bool) (s : string) :
  after_scheme (scheme secure ++ "://" ++ s) = Some s.
Proof. destruct secure; reflexivity. Qed.

Lemma after_scheme_Some (s s' : string) :
  after_scheme s = Some s' ->
  exists secure : bool, s = scheme secure ++ "://" ++ s'.
Proof.
  unfold after_scheme. intros H.
  destruct (strip_prefix "http" s) as [s1|] eqn:E1; [|discriminate].
  apply strip_prefix_Some in E1. subst s.
  destruct (strip_prefix "s" s1) as [s2|] eqn:E2.
  - apply strip_prefix_Some in E2, H. subst. now exists true.
  - apply strip_prefix_Some in H. subst. now exists false.
Qed.

Lemma match_here_form (secure www : bool) (host tail : string) :
  host <> "" -> no_slash host -> ends_host tail ->
  (www = false -> bare host) ->
  match_here Flattener.pattern
    (scheme secure ++ "://" ++ www_prefix www ++ host ++ tail) =
  Some (MatchObject (Some host)).
Proof.
  intros. rewrite match_here_pattern, after_scheme_scheme, host_at_form; auto.
Qed.

Lemma match_here_Some (t : string) (m : match_object) :
  match_here Flattener.pattern t = Some m ->
  exists (secure www : bool) (host tail : string),
    m = MatchObject (Some host) /\
    t = scheme secure ++ "://" ++ www_prefix www ++ host ++ tail /\
    host <> "" /\ no_slash host /\ ends_host tail /\
    (www = false -> bare host).
Proof.
  rewrite match_here_pattern. intros H.
  destruct (after_scheme t) as [s'|] eqn:E; [|discriminate].
  destruct (host_at s') as [h|] eqn:E'; [|discriminate].
  injection H as <-.
  apply after_scheme_Some in E. destruct E as [secure ->].
  apply host_at_Some in E'.
  destruct E' as (H1 & H2 & www & tail & -> & H3 & H4).
  exists secure, www, h, tail. auto 10.
Qed.

Lemma match_here_None (t : string) :
  match_here Flattener.pattern t = None <-> ~ occurrence_at t.
Proof.
  rewrite match_here_pattern. split.
  - intros H (secure & c & rest & Hc & ->).
    rewrite after_scheme_scheme in H.
    destruct (host_at (String c rest)) eqn:E; [discriminate|].
    apply host_at_None in E. simpl in E. contradiction.
  - intros H.
    destruct (after_scheme t) as [s'|] eqn:E; [|reflexivity].
    destruct (host_at s') as [h|] eqn:E'; [|reflexivity].
    exfalso. apply H.
    apply after_scheme_Some in E. destruct E as [secure ->].
    assert (N : ~ ends_host s').
    { intros D. apply host_at_None in D. congruence. }
    destruct s' as [|c rest]; [exfalso; now apply N|].
    exists secure, c, rest. split; [exact N | reflexivity].
Qed.

Lemma search_first (pre t : string) (m : match_object) :
  first_at pre t ->
  match_here Flattener.pattern t = Some m ->
  search Flattener.pattern (pre ++ t) = Some m.
Proof.
  induction pre as [|c pre IH]; intros F M.
  - change ("" ++ t) with t. destruct t; cbn [search]; now rewrite M.
  - change (String c pre ++ t) with (String c (pre ++ t)).
    cbn [search].
    assert (N : match_here Flattener.pattern (String c (pre ++ t)) = None).
    { apply match_here_None. apply (F "" (String c pre)); [reflexivity|].
      discriminate. }
    rewrite N. apply IH; [|exact M].
    intros p1 p2 E Hp2. apply (F (String c p1) p2); [|exact Hp2].
    simpl. now rewrite E.
Qed.

Lemma match_here_occurrence (t : string) (m : match_object) :
  match_here Flattener.pattern t = Some m -> occurrence_at t.
Proof.
  intros H. destruct (match_here Flattener.pattern t) eqn:E; [|discriminate].
  destruct (match_here_Some _ _ E)
    as (secure & www & host & tail & _ & -> & Hne & Hh & _ & _).
  destruct www.
  - exists secure, "w"%char, ("ww." ++ host ++ tail).
    split; [discriminate | reflexivity].
  - destruct host as [|c host]; [congruence|].
    exists secure, c, (host ++ tail). split; [apply Hh | reflexivity].
Qed.

Lemma search_None (s : string) :
  search Flattener.pattern s = None <-> ~ has_occurrence s.
Proof.
  induction s as [|c s IH]; cbn [search].
  - destruct (match_here Flattener.pattern "") as [m|] eqn:M.
    + split; [discriminate|]. intros H. exfalso. apply H.
      exists "", "". split; [reflexivity|].
      exact (match_here_occurrence _ _ M).
    + split; [|reflexivity]. intros _ (pre & t & E & O).
      destruct pre; [|discriminate]. simpl in E. subst t.
      now apply match_here_None in M.
  - destruct (match_here Flattener.pattern (String c s)) as [m|] eqn:M.
    + split; [discriminate|]. intros H. exfalso. apply H.
      exists "", (String c s). split; [reflexivity|].
      exact (match_here_occurrence _ _ M).
    + rewrite IH. apply match_here_None in M. split.
      * intros H (pre & t & E & O). destruct pre as [|d pre].
        -- simpl in E. subst t. contradiction.
        -- simpl in E. injection E as -> E. apply H. now exists pre, t.
      * intros H (pre & t & E & O). apply H.
        exists (String c pre), t. split; [simpl; now rewrite E | exact O].
Qed.

Lemma search_Some (s : string) (m : match_object) :
  search Flattener.pattern s = Some m ->
  exists pre t : string,
    s = pre ++ t /\ match_here Flattener.pattern t = Some m /\
    first_at pre t.
Proof.
  assert (F0 : forall t, first_at "" t).
  { intros t p1 p2 E N. destruct p1; [|discriminate].
    simpl in E. congruence. }
  induction s as [|c s IH]; cbn [search].
  - destruct (match_here Flattener.pattern "") as [m'|] eqn:M;
      [|discriminate].
    intros [= <-]. exists "", "". auto.
  - destruct (match_here Flattener.pattern (String c s)) as [m'|] eqn:M.
    + intros [= <-]. exists "", (String c s). auto.
    + intros H. destruct (IH H) as (pre & t & -> & Ht & F).
      exists (String c pre), t. repeat split; auto.
      intros p1 p2 E N. destruct p1 as [|d p1].
      * simpl in E. subst p2. now apply match_here_None.
      * simpl in E. injection E as _ E. exact (F _ _ E N).
Qed.

Lemma extract_domain_search (url : string) (host : string) :
  search Flattener.pattern url = Some (MatchObject (Some host)) ->
  Flattener.extract_domain url = host.
Proof.
  intros H. unfold Flattener.extract_domain, Flattener.extract_domain_value.
  now rewrite H.
Qed.

Lemma extract_domain_same (url : string) :
  Flattener2.extract_domain url = Flattener.extract_domain url.
Proof. reflexivity. Qed.

End PatternFacts.

(* ================================================================== *)
(** * The pandas operations *)

Section PandasFacts.
Import Pandas.

Lemma existsb_eqb_In (x : string) (l : list string) :
  existsb (String.eqb x) l = true <-> In x l.
Proof.
  rewrite existsb_exists. split.
  - intros (y & Hy & E). apply String.eqb_eq in E. now subst.
  - intros H. exists x. split; [exact H | apply String.eqb_refl].
Qed.

Lemma fold_step_In (xs acc : list string) (x : string) :
  In x (fold_left unique_step xs acc) <-> In x acc \/ In x xs.
Proof.
  revert acc. induction xs as [|y xs IH]; intros acc; simpl.
  - tauto.
  - rewrite IH. unfold unique_step.
    destruct (existsb (String.eqb y) acc) eqn:E.
    + apply existsb_eqb_In in E. split; [tauto|].
      intros [H|[H|H]]; subst; auto.
    + rewrite in_app_iff. simpl. tauto.
Qed.

Lemma fold_step_NoDup (xs acc : list string) :
  NoDup acc -> NoDup (fold_left unique_step xs acc).
Proof.
  revert acc. induction xs as [|y xs IH]; intros acc H; simpl; [exact H|].
  apply IH. unfold unique_step.
  destruct (existsb (String.eqb y) acc) eqn:E; [exact H|].
  apply NoDup_app; [exact H | repeat constructor; intros [] |].
  intros a Ha [<-|[]].
  apply existsb_eqb_In in Ha. congruence.
Qed.

Lemma unique_In (xs : list string) (x : string) :
  In x (unique xs) <-> In x xs.
Proof. unfold unique. rewrite fold_step_In. simpl. tauto. Qed.

Lemma unique_NoDup (xs : list string) : NoDup (unique xs).
Proof. unfold unique. apply fold_step_NoDup. constructor. Qed.

Lemma partners_absent (d : string) (right : list DomainRecord) :
  ~ In d (map record_domain right) ->
  filter (fun r => String.eqb (record_domain r) d) right = [].
Proof.
  induction right as [|r right IH]; simpl; intros H; [reflexivity|].
  destruct (String.eqb_spec (record_domain r) d) as [E|N].
  - exfalso. apply H. now left.
  - apply IH. intros D. apply H. now right.
Qed.

Lemma partners_unique (rec : DomainRecord) (right : list DomainRecord) :
  NoDup (map record_domain right) -> In rec right ->
  filter (fun r => String.eqb (record_domain r) (record_domain rec)) right
  = [rec].
Proof.
  induction right as [|r right IH]; simpl; intros N H; [contradiction|].
  inversion N as [|? ? Hr N']; subst.
  destruct H as [->|H].
  - rewrite String.eqb_refl, partners_absent; auto.
  - destruct (String.eqb_spec (record_domain r) (record_domain rec)) as [E|_].
    + exfalso. apply Hr. rewrite E. now apply in_map.
    + now apply IH.
Qed.

Lemma merge_left_records (ip_of : string -> string) (domains : list string)
      (df : list DomainRow) :
  NoDup domains ->
  (forall l, In l df -> In (domain l) domains) ->
  merge_left df (Outcome.records ip_of domains) =
  map (fun l => mkMergedRow l (Some (ip_of (domain l)))) df.
Proof.
  intros N H. unfold merge_left.
  match goal with |- flat_map ?f _ = _ => set (F := f) end.
  induction df as [|l df IH]; [reflexivity|].
  change (flat_map F (l :: df)) with (F l ++ flat_map F df).
  rewrite IH by (intros; apply H; now right).
  unfold F. cbn [map].
  assert (Hl : In (mkDomainRecord (domain l) (ip_of (domain l)))
                  (Outcome.records ip_of domains)).
  { unfold Outcome.records.
    apply (in_map (fun d => mkDomainRecord d (ip_of d))). apply H. now left. }
  pose proof (partners_unique
                (mkDomainRecord (domain l) (ip_of (domain l)))
                (Outcome.records ip_of domains)) as P.
  cbn [record_domain] in P. rewrite P; [reflexivity | | exact Hl].
  unfold Outcome.records. rewrite map_map. cbn [record_domain].
  now rewrite map_id.
Qed.

Lemma where_assign (df : list Row) :
  where_domain_ne "NA" (assign_domain Flattener.extract_domain df) =
  map (fun r => mkDomainRow r (Outcome.row_domain r))
      (filter Outcome.keeps df).
Proof.
  unfold where_domain_ne, assign_domain.
  induction df as [|r df IH]; simpl; [reflexivity|].
  unfold Outcome.keeps at 1. fold (Outcome.row_domain r).
  destruct (negb (String.eqb (Outcome.row_domain r) "NA")); simpl;
    now rewrite IH.
Qed.

Lemma assign_ipaddress_map (ip_of : string -> string) (domains : list string) :
  assign_ipaddress domains (map ip_of domains) =
  Py.ret (Outcome.records ip_of domains).
Proof.
  unfold assign_ipaddress. rewrite length_map, Nat.eqb_refl.
  f_equal. unfold Outcome.records.
  induction domains as [|d ds IH]; simpl; [reflexivity | now rewrite IH].
Qed.

Lemma mapM_answers {A B : Type} (g : A -> Py.io B) (f : A -> B)
      (log : A -> string) (xs : list A) :
  (forall x, In x xs -> g x = ([log x], Py.Ok (f x))) ->
  Py.mapM g xs = (map log xs, Py.Ok (map f xs)).
Proof.
  induction xs as [|x xs IH]; intros H; simpl; [reflexivity|].
  rewrite (H x) by now left.
  rewrite IH by (intros; apply H; now right).
  simpl. now rewrite app_nil_r.
Qed.

End PandasFacts.

(* ================================================================== *)
(** * The two lookups and the closed form of the two enrichments *)

Section EnrichmentFacts.
Import Pandas Outcome.

Lemma get_ip_answer (gethostbyname : string -> Py.result string)
      (d : string) :
  (forall e, gethostbyname d = Py.Raise e ->
             Flattener.gaierror_or_timeout e = true) ->
  Flattener.get_ip gethostbyname d = ([d], Py.Ok (answer gethostbyname d)).
Proof.
  intros H. unfold Flattener.get_ip, Py.try_except, Py.lookup, answer.
  destruct (gethostbyname d) as [ip|e]; [reflexivity|].
  now rewrite (H e eq_refl).
Qed.

Lemma get_ip_async_answer
      (gethostbyname : string -> Py.result Flattener2.host_result)
      (d : string) :
  Flattener2.get_ip_async gethostbyname d =
  ([d], Py.Ok (answer_async gethostbyname d)).
Proof.
  unfold Flattener2.get_ip_async, Py.try_except, Py.lookup, Py.bind,
    answer_async.
  destruct (gethostbyname d) as [[[|ip others]]|e]; reflexivity.
Qed.

Lemma merge_enrich (ip_of : string -> string) (df : list Row) :
  fillna_ipaddress "NA"
    (merge_left
       (map (fun r => mkDomainRow r (row_domain r)) (filter keeps df))
       (records ip_of (unique (row_domains df)))) =
  enrich ip_of df.
Proof.
  rewrite merge_left_records.
  - unfold fillna_ipaddress, enrich. rewrite !map_map. reflexivity.
  - apply unique_NoDup.
  - intros l Hl. apply unique_In. unfold row_domains.
    apply in_map_iff in Hl. destruct Hl as (r & <- & Hr).
    cbn [domain]. now apply in_map.
Qed.

Lemma resolve_threadpool (gethostbyname : string -> Py.result string)
      (domains : list string) (num_workers : Z) :
  (0 < num_workers)%Z -> handled gethostbyname domains ->
  (ips <- Flattener.executor_map num_workers
            (Flattener.get_ip gethostbyname) domains ;;
   assign_ipaddress domains ips) =
  (domains, Py.Ok (records (answer gethostbyname) domains)).
Proof.
  intros Hn H. unfold Flattener.executor_map.
  destruct (Z.leb_spec num_workers 0) as [L|_]; [lia|].
  rewrite (mapM_answers _ (answer gethostbyname) (fun d => d)).
  - rewrite map_id. unfold Py.bind. rewrite assign_ipaddress_map.
    unfold Py.ret. now rewrite app_nil_r.
  - intros d Hd. apply get_ip_answer. intros e. now apply H.
Qed.

Lemma resolve_ips_async_answers
      (gethostbyname : string -> Py.result Flattener2.host_result)
      (domains : list string) :
  Flattener2.resolve_ips_async gethostbyname domains =
  (domains, Py.Ok (records (answer_async gethostbyname) domains)).
Proof.
  unfold Flattener2.resolve_ips_async.
  rewrite (mapM_answers _ (answer_async gethostbyname) (fun d => d)).
  - rewrite map_id. unfold Py.bind. rewrite assign_ipaddress_map.
    unfold Py.ret. now rewrite app_nil_r.
  - intros d _. apply get_ip_async_answer.
Qed.

Lemma bind_assoc {A B C : Type} (m : Py.io A) (f : A -> Py.io B)
      (g : B -> Py.io C) :
  Py.bind (Py.bind m f) g = Py.bind m (fun a => Py.bind (f a) g).
Proof.
  destruct m as [log [a|e]]; simpl; [|reflexivity].
  destruct (f a) as [log' [b|e]]; simpl; [|reflexivity].
  destruct (g b) as [log'' r]. now rewrite app_assoc.
Qed.

Lemma domain_column (df : list Row) :
  map domain (map (fun r => mkDomainRow r (row_domain r)) (filter keeps df))
  = row_domains df.
Proof. unfold row_domains. now rewrite map_map. Qed.

Lemma parallelize_threadpool (gethostbyname : string -> Py.result string)
      (df : list Row) (num_workers : Z) :
  (0 < num_workers)%Z -> handled gethostbyname (row_domains df) ->
  Flattener.parallelize_domain_ip gethostbyname df num_workers =
  (unique (row_domains df), Py.Ok (enrich (answer gethostbyname) df)).
Proof.
  intros Hn H. unfold Flattener.parallelize_domain_ip.
  rewrite where_assign, domain_column, <- bind_assoc.
  rewrite resolve_threadpool; [| exact Hn |].
  - unfold Py.bind, Py.ret. now rewrite merge_enrich, app_nil_r.
  - intros d e Hd. apply H. now apply unique_In.
Qed.

Lemma parallelize_async
      (gethostbyname : string -> Py.result Flattener2.host_result)
      (df : list Row) :
  Flattener2.parallelize_domain_ip gethostbyname df =
  (unique (row_domains df), Py.Ok (enrich (answer_async gethostbyname) df)).
Proof.
  unfold Flattener2.parallelize_domain_ip.
  change Flattener2.extract_domain with Flattener.extract_domain.
  rewrite where_assign, domain_column, resolve_ips_async_answers.
  unfold Py.bind, Py.ret. now rewrite merge_enrich, app_nil_r.
Qed.

End EnrichmentFacts.

(* ================================================================== *)
(** * The domain extractor *)

Section ExtractDomain.
Local Open Scope string_scope.
Import Re Url.

Lemma first_at_nil (t : string) : first_at "" t.
Proof.
  intros p1 p2 E N. destruct p1; [|discriminate]. simpl in E. congruence.
Qed.

Lemma extract_domain_first (pre : string) (secure www : bool)
      (host tail : string) :
  host <> "" -> no_slash host -> ends_host tail ->
  (www = false -> bare host) ->
  first_at pre (scheme secure ++ "://" ++ www_prefix www ++ host ++ tail) ->
  Flattener.extract_domain
    (pre ++ scheme secure ++ "://" ++ www_prefix www ++ host ++ tail) = host.
Proof.
  intros Hne Hh Ht Hb F. apply extract_domain_search.
  apply search_first; [exact F|]. now apply match_here_form.
Qed.

Lemma extract_domain_no_occurrence (s : string) :
  ~ has_occurrence s -> Flattener.extract_domain s = "NA".
Proof.
  intros H. apply search_None in H.
  unfold Flattener.extract_domain, Flattener.extract_domain_value.
  now rewrite H.
Qed.

Lemma extract_domain_occurrence (s : string) :
  has_occurrence s ->
  exists (pre : string) (secure www : bool) (host tail : string),
    s = pre ++ scheme secure ++ "://" ++ www_prefix www ++ host ++ tail /\
    host <> "" /\ no_slash host /\ ends_host tail /\
    (www = false -> bare host) /\
    first_at pre (scheme secure ++ "://" ++ www_prefix www ++ host ++ tail) /\
    Flattener.extract_domain s = host.
Proof.
  intros H.
  destruct (search Flattener.pattern s) as [m|] eqn:E.
  - destruct (search_Some _ _ E) as (pre & t & -> & M & F).
    destruct (match_here_Some _ _ M)
      as (secure & www & host & tail & -> & -> & Hne & Hh & Ht & Hb).
    exists pre, secure, www, host, tail.
    repeat split; auto. now apply extract_domain_search.
  - apply search_None in E. contradiction.
Qed.

(** C3.  For every URL [http(s)://[www.]host/...], where [host] is not
    empty, has no ['/'] and is what follows the optional [www.],
    [extract_domain] of both files returns [host] verbatim, port included:
    the scheme and the [www.] prefix are stripped and the host ends at the
    first ['/'].  The two examples of the specification are instances. *)
Theorem extract_domain_of_url (secure www : bool) (host rest : string) :
  host <> "" -> no_slash host -> (www = false -> bare host) ->
  Flattener.extract_domain
    (scheme secure ++ "://" ++ www_prefix www ++ host ++ "/" ++ rest) = host
  /\ Flattener2.extract_domain
    (scheme secure ++ "://" ++ www_prefix www ++ host ++ "/" ++ rest) = host
  /\ Flattener.extract_domain "http://example.org:8080/x" = "example.org:8080"
  /\ Flattener.extract_domain "https://www.example.com/path?q=1"
     = "example.com".
Proof.
  intros Hne Hh Hb.
  assert (E : Flattener.extract_domain
    (scheme secure ++ "://" ++ www_prefix www ++ host ++ "/" ++ rest) = host).
  { apply (extract_domain_first "" secure www host ("/" ++ rest)); auto.
    - reflexivity.
    - apply first_at_nil. }
  repeat split; try exact E; reflexivity.
Qed.

Lemma extract_domain_of_url_witness :
  no_slash "example.org:8080" /\
  Flattener.extract_domain ("http" ++ "://" ++ "" ++ "example.org:8080" ++ "/" ++ "x")
  = "example.org:8080".
Proof.
  split.
  - simpl. repeat split; discriminate.
  - apply (extract_domain_of_url false false "example.org:8080" "x").
    + discriminate.
    + simpl. repeat split; discriminate.
    + intros _ h _ D. discriminate D.
Defined.

(** C8.  [extract_domain] is a total function of its argument alone: for
    every string it returns a string (group 1 always takes part in a
    match, so the result is never [None], and nothing in it can raise),
    and when the pattern matches nowhere the result is the marker ["NA"];
    so for a text that is not a URL, for a URL without its scheme and for
    the empty string. *)
Theorem extract_domain_total (url : string) :
  Flattener.extract_domain_value url = Py.Str (Flattener.extract_domain url)
  /\ Flattener2.extract_domain_value url
     = Py.Str (Flattener2.extract_domain url)
  /\ (search Flattener.pattern url = None ->
      Flattener.extract_domain url = "NA" /\
      Flattener2.extract_domain url = "NA")
  /\ Flattener.extract_domain "not a url" = "NA"
  /\ Flattener.extract_domain "www.example.com/path?q=1" = "NA"
  /\ Flattener.extract_domain "" = "NA".
Proof.
  assert (T : Flattener.extract_domain_value url
              = Py.Str (Flattener.extract_domain url)).
  { unfold Flattener.extract_domain, Flattener.extract_domain_value.
    destruct (search Flattener.pattern url) as [m|] eqn:E; [|reflexivity].
    destruct (search_Some _ _ E) as (pre & t & _ & M & _).
    destruct (match_here_Some _ _ M) as (? & ? & host & ? & -> & _).
    reflexivity. }
  assert (N : search Flattener.pattern url = None ->
              Flattener.extract_domain url = "NA").
  { intros H.
    unfold Flattener.extract_domain, Flattener.extract_domain_value.
    now rewrite H. }
  split; [exact T|]. split; [exact T|].
  split; [intros H; split; exact (N H)|].
  repeat split; reflexivity.
Qed.

Lemma extract_domain_total_witness :
  search Flattener.pattern "not a url" = None /\
  Flattener.extract_domain "not a url" = "NA".
Proof.
  split; [reflexivity|].
  destruct (extract_domain_total "not a url") as (_ & _ & N & _).
  apply N. reflexivity.
Defined.

(** C10, as stated, fails: ["NA"] is also returned for a string that has
    an occurrence, when the host of the first occurrence is the text
    [NA] itself. *)
Lemma extract_domain_host_NA :
  ~ (Flattener.extract_domain "http://NA/x" = "NA" ->
     ~ has_occurrence "http://NA/x").
Proof.
  intros H. apply H; [reflexivity|].
  exists "", "http://NA/x". split; [reflexivity|].
  exists false, "N"%char, "A/x". split; [discriminate | reflexivity].
Qed.

(** C10, amended.  The pattern is searched for anywhere in the string.  If
    the string has an occurrence of [http://] or [https://] followed by a
    character other than ['/'], whatever text precedes it, [extract_domain]
    returns the host of the first occurrence: the run without ['/'] that
    follows the scheme and the optional [www.].  If it has no occurrence,
    the result is ["NA"].  The result is ["NA"] only then, or when the host
    of the first occurrence is itself the text [NA]. *)
Theorem extract_domain_searches_anywhere (s : string) :
  (forall (pre : string) (secure www : bool) (host tail : string),
      s = pre ++ scheme secure ++ "://" ++ www_prefix www ++ host ++ tail ->
      host <> "" -> no_slash host -> ends_host tail ->
      (www = false -> bare host) ->
      first_at pre
        (scheme secure ++ "://" ++ www_prefix www ++ host ++ tail) ->
      Flattener.extract_domain s = host)
  /\ (has_occurrence s ->
      exists (pre : string) (secure www : bool) (host tail : string),
        s = pre ++ scheme secure ++ "://" ++ www_prefix www ++ host ++ tail /\
        host <> "" /\ no_slash host /\ ends_host tail /\
        (www = false -> bare host) /\
        first_at pre
          (scheme secure ++ "://" ++ www_prefix www ++ host ++ tail) /\
        Flattener.extract_domain s = host)
  /\ (~ has_occurrence s -> Flattener.extract_domain s = "NA")
  /\ (Flattener.extract_domain s = "NA" ->
      ~ has_occurrence s \/
      exists (pre : string) (secure www : bool) (tail : string),
        s = pre ++ scheme secure ++ "://" ++ www_prefix www ++ "NA" ++ tail /\
        ends_host tail /\
        first_at pre
          (scheme secure ++ "://" ++ www_prefix www ++ "NA" ++ tail))
  /\ Flattener2.extract_domain s = Flattener.extract_domain s.
Proof.
  split; [|split; [|split; [|split]]].
  - intros pre secure www host tail -> Hne Hh Ht Hb F.
    now apply extract_domain_first.
  - apply extract_domain_occurrence.
  - apply extract_domain_no_occurrence.
  - intros E.
    destruct (search Flattener.pattern s) as [m|] eqn:Es.
    + right.
      assert (O : has_occurrence s).
      { destruct (search_Some _ _ Es) as (pre & t & -> & M & _).
        exists pre, t. split; [reflexivity|].
        exact (match_here_occurrence _ _ M). }
      destruct (extract_domain_occurrence s O)
        as (pre & secure & www & host & tail & Hs & _ & _ & Ht & _ & F & Eh).
      rewrite E in Eh. subst host.
      exists pre, secure, www, tail. auto.
    + left. now apply search_None.
  - reflexivity.
Qed.

Lemma extract_domain_searches_anywhere_witness :
  Flattener.extract_domain "see http://www.a.test:80/x" = "a.test:80".
Proof.
  apply (proj1 (extract_domain_searches_anywhere "see http://www.a.test:80/x")
               "see " false true "a.test:80" "/x").
  - reflexivity.
  - discriminate.
  - simpl. repeat split; discriminate.
  - reflexivity.
  - discriminate.
  - intros p1 p2 E N. apply match_here_None.
    destruct p1 as [|c1 [|c2 [|c3 [|c4 [|c5 p1]]]]]; simpl in E;
      try (injection E; intros; subst; try reflexivity; congruence).
    subst p2. reflexivity.
Defined.

End ExtractDomain.

(* ================================================================== *)
(** * The join *)

Section JoinFacts.
Import Pandas Outcome.

Lemma same_key_same_record (right : list DomainRecord)
      (a b : DomainRecord) :
  NoDup (map record_domain right) -> In a right -> In b right ->
  record_domain a = record_domain b -> a = b.
Proof.
  induction right as [|r right IH]; simpl; intros N Ha Hb E; [contradiction|].
  inversion N as [|? ? Hr N']; subst.
  destruct Ha as [->|Ha], Hb as [->|Hb]; auto.
  - exfalso. apply Hr. rewrite E. now apply in_map.
  - exfalso. apply Hr. rewrite <- E. now apply in_map.
Qed.

Lemma in_keys (d : string) (right : list DomainRecord) :
  In d (map record_domain right) <->
  exists rec, In rec right /\ record_domain rec = d.
Proof.
  rewrite in_map_iff. split; intros (rec & H1 & H2); exists rec; auto.
Qed.

(** Where an output row of the join comes from. *)
Lemma in_join (left : list DomainRow) (right : list DomainRecord)
      (o : EnrichedRow) :
  In o (fillna_ipaddress "NA" (merge_left left right)) ->
  exists l : DomainRow,
    In l left /\ enriched_row o = row l /\ enriched_domain o = domain l /\
    ((exists rec, In rec right /\ record_domain rec = domain l /\
                  ipaddress o = record_ip rec)
     \/ (~ In (domain l) (map record_domain right) /\ ipaddress o = "NA")).
Proof.
  unfold fillna_ipaddress, merge_left. intros H.
  apply in_map_iff in H. destruct H as (m & <- & Hm).
  apply in_flat_map in Hm. destruct Hm as (l & Hl & Hm).
  exists l. split; [exact Hl|].
  destruct (filter (fun r => String.eqb (record_domain r) (domain l)) right)
    as [|rec0 partners] eqn:F.
  - destruct Hm as [<-|[]]. cbn. repeat split. right. split; [|reflexivity].
    intros D. apply in_keys in D. destruct D as (rec & Hrec & E).
    assert (Hin : In rec (filter (fun r => String.eqb (record_domain r)
                                              (domain l)) right)).
    { apply filter_In. split; [exact Hrec | now apply String.eqb_eq]. }
    rewrite F in Hin. contradiction.
  - apply in_map_iff in Hm. destruct Hm as (rec & <- & Hrec).
    rewrite <- F in Hrec. apply filter_In in Hrec.
    destruct Hrec as [Hrec E]. apply String.eqb_eq in E.
    cbn. repeat split. left. exists rec. auto.
Qed.

Lemma join_present (left : list DomainRow) (right : list DomainRecord)
      (rec : DomainRecord) (o : EnrichedRow) :
  NoDup (map record_domain right) -> In rec right ->
  In o (fillna_ipaddress "NA" (merge_left left right)) ->
  enriched_domain o = record_domain rec ->
  ipaddress o = record_ip rec.
Proof.
  intros N Hrec Ho E.
  destruct (in_join _ _ _ Ho) as (l & _ & _ & Ed & [(rec' & H1 & H2 & H3)|[A _]]).
  - rewrite H3. f_equal. apply (same_key_same_record right); auto.
    congruence.
  - exfalso. apply A. apply in_keys. exists rec. split; [exact Hrec|].
    congruence.
Qed.

Lemma join_absent (left : list DomainRow) (right : list DomainRecord)
      (o : EnrichedRow) :
  In o (fillna_ipaddress "NA" (merge_left left right)) ->
  ~ In (enriched_domain o) (map record_domain right) ->
  ipaddress o = "NA".
Proof.
  intros Ho A.
  destruct (in_join _ _ _ Ho) as (l & _ & _ & Ed & [(rec' & H1 & H2 & H3)|[_ E]]).
  - exfalso. apply A. apply in_keys. exists rec'. split; [exact H1|].
    congruence.
  - exact E.
Qed.



Lemma keeps_domain (r : Row) : keeps r = true <-> row_domain r <> "NA".
Proof.
  unfold keeps. fold (row_domain r).
  rewrite negb_true_iff. apply String.eqb_neq.
Qed.

Lemma in_row_domains (d : string) (df : list Row) :
  In d (row_domains df) <->
  d <> "NA" /\
  exists r, In r df /\ Flattener.extract_domain (infringing_urls r) = d.
Proof.
  unfold row_domains. rewrite in_map_iff. split.
  - intros (r & <- & Hr). apply filter_In in Hr. destruct Hr as [Hr K].
    split; [now apply keeps_domain|]. now exists r.
  - intros (Hd & r & Hr & <-). exists r. split; [reflexivity|].
    apply filter_In. split; [exact Hr | now apply keeps_domain].
Qed.

Lemma enrich_rows (ip_of : string -> string) (df : list Row) :
  map enriched_row (enrich ip_of df) = filter keeps df.
Proof. unfold enrich. rewrite map_map. cbn. apply map_id. Qed.

Lemma in_enrich (ip_of : string -> string) (df : list Row) (o : EnrichedRow) :
  In o (enrich ip_of df) ->
  In (enriched_row o) df /\
  enriched_domain o
  = Flattener.extract_domain (infringing_urls (enriched_row o)) /\
  enriched_domain o <> "NA" /\
  ipaddress o = ip_of (enriched_domain o).
Proof.
  unfold enrich. intros H. apply in_map_iff in H.
  destruct H as (r & <- & Hr). apply filter_In in Hr. destruct Hr as [Hr K].
  cbn. repeat split; auto. now apply keeps_domain.
Qed.

Lemma enrich_ext (f g : string -> string) (df : list Row) :
  (forall d, In d (row_domains df) -> f d = g d) ->
  enrich f df = enrich g df.
Proof.
  intros H. unfold enrich. apply map_ext_in. intros r Hr.
  rewrite H; [reflexivity|]. unfold row_domains. now apply in_map.
Qed.


End JoinFacts.

(* ================================================================== *)
(** * The enrichment *)

Section Enrichment.
Import Pandas Outcome.

Lemma handled_scenario (domains : list string) :
  handled Scenario.gethostbyname domains.
Proof.
  intros d e _ E. unfold Scenario.gethostbyname in E.
  destruct (String.eqb d "a.test"); [discriminate|].
  injection E as <-. reflexivity.
Qed.

(** The table of three rows, as both files enrich it. *)
Example scenario_threadpool :
  Flattener.parallelize_domain_ip Scenario.gethostbyname Scenario.rows Flattener.default_num_workers =
  (["a.test"],
   Py.Ok [ mkEnrichedRow (mkRow "https://a.test/1" [("principal_name", "P")])
                         "a.test" "1.2.3.4";
           mkEnrichedRow (mkRow "https://a.test/2" [("principal_name", "P")])
                         "a.test" "1.2.3.4" ]).
Proof. reflexivity. Qed.

Example scenario_async :
  Flattener2.parallelize_domain_ip Scenario.gethostbyname_async Scenario.rows
  = Flattener.parallelize_domain_ip Scenario.gethostbyname Scenario.rows Flattener.default_num_workers.
Proof. reflexivity. Qed.

(** C1, as stated, fails: of the three rows of [Scenario.rows] the one
    whose URL has no scheme is not in the output of either file, which has
    two rows. *)
Lemma enrichment_drops_rows :
  ~ (exists out,
        snd (Flattener.parallelize_domain_ip
               Scenario.gethostbyname Scenario.rows Flattener.default_num_workers) = Py.Ok out /\
        List.length out = List.length Scenario.rows)
  /\ ~ (exists out,
        snd (Flattener2.parallelize_domain_ip
               Scenario.gethostbyname_async Scenario.rows) = Py.Ok out /\
        List.length out = List.length Scenario.rows).
Proof.
  split; intros (out & E & L); vm_compute in E; injection E as <-;
    discriminate L.
Qed.

(** C1, amended.  When every lookup answers or fails with an error that
    [get_ip] handles, both files return exactly the rows whose extracted
    domain is not ["NA"], each once and in the order of the input: the
    output has as many rows as the input has such rows, never more than
    the input.  The rows whose extracted domain is ["NA"] are not looked
    up and are not in the output. *)
Theorem enrichment_keeps_rows_with_domain
        (gethostbyname : string -> Py.result string)
        (gethostbyname2 : string -> Py.result Flattener2.host_result)
        (df : list Row) (num_workers : Z) :
  (0 < num_workers)%Z -> handled gethostbyname (row_domains df) ->
  exists out out2 : list EnrichedRow,
    snd (Flattener.parallelize_domain_ip gethostbyname df num_workers)
    = Py.Ok out /\
    snd (Flattener2.parallelize_domain_ip gethostbyname2 df) = Py.Ok out2 /\
    map enriched_row out = filter keeps df /\
    map enriched_row out2 = filter keeps df /\
    List.length out = List.length (filter keeps df) /\
    List.length out2 = List.length (filter keeps df) /\
    List.length (filter keeps df) <= List.length df /\
    (forall o, In o out \/ In o out2 -> enriched_domain o <> "NA") /\
    ~ In "NA" (fst (Flattener.parallelize_domain_ip
                      gethostbyname df num_workers)) /\
    ~ In "NA" (fst (Flattener2.parallelize_domain_ip gethostbyname2 df)).
Proof.
  intros Hn H.
  rewrite (parallelize_threadpool _ _ _ Hn H), parallelize_async.
  exists (enrich (answer gethostbyname) df),
         (enrich (answer_async gethostbyname2) df).
  cbn [fst snd].
  assert (NA : ~ In "NA" (unique (row_domains df))).
  { intros D. apply unique_In, in_row_domains in D. now destruct D. }
  repeat split; auto using enrich_rows.
  - now rewrite <- (enrich_rows (answer gethostbyname)), length_map.
  - now rewrite <- (enrich_rows (answer_async gethostbyname2)), length_map.
  - apply filter_length_le.
  - intros o [Ho|Ho]; now apply in_enrich in Ho.
Qed.

Lemma enrichment_keeps_rows_with_domain_witness :
  exists out,
    snd (Flattener.parallelize_domain_ip
           Scenario.gethostbyname Scenario.rows Flattener.default_num_workers) = Py.Ok out /\
    List.length out = 2.
Proof.
  destruct (enrichment_keeps_rows_with_domain
              Scenario.gethostbyname Scenario.gethostbyname_async
              Scenario.rows Flattener.default_num_workers eq_refl (handled_scenario _))
    as (out & _ & E & _ & _ & _ & L & _).
  exists out. split; [exact E | exact L].
Defined.

(** What [get_ip] does with the two classes it handles, and with any
    other exception. *)
Lemma get_ip_handled (gethostbyname : string -> Py.result string)
      (d : string) (e : Py.exn) :
  gethostbyname d = Py.Raise e ->
  Flattener.get_ip gethostbyname d =
  ([d], if Flattener.gaierror_or_timeout e then Py.Ok "NA" else Py.Raise e).
Proof.
  intros E. unfold Flattener.get_ip, Py.try_except, Py.lookup.
  rewrite E. now destruct (Flattener.gaierror_or_timeout e).
Qed.

Lemma get_ip_async_failure
      (gethostbyname : string -> Py.result Flattener2.host_result)
      (d : string) (e : Py.exn) :
  gethostbyname d = Py.Raise e ->
  Flattener2.get_ip_async gethostbyname d = ([d], Py.Ok "NA").
Proof.
  intros E. rewrite get_ip_async_answer. unfold answer_async. now rewrite E.
Qed.

Lemma records_ext (f g : string -> string) (domains : list string) :
  (forall d, In d domains -> f d = g d) ->
  records f domains = records g domains.
Proof.
  intros H. unfold records. apply map_ext_in. intros d Hd. now rewrite H.
Qed.

(** The part of C2 that holds.  A lookup that fails with
    [socket.gaierror] or [socket.timeout] in [flattener.py], or with any
    exception in [flattener2.py], gives ["NA"]; a batch in which every
    lookup answers or fails so is resolved to the end; and when every
    lookup fails so, the mapping has one record per domain and every
    value is ["NA"]. *)
Theorem handled_failures_become_NA
        (gethostbyname : string -> Py.result string)
        (gethostbyname2 : string -> Py.result Flattener2.host_result)
        (domains : list string) (num_workers : Z) :
  (0 < num_workers)%Z ->
  (handled gethostbyname domains ->
   (ips <- Flattener.executor_map num_workers
             (Flattener.get_ip gethostbyname) domains ;;
    assign_ipaddress domains ips)
   = (domains, Py.Ok (records (answer gethostbyname) domains)))
  /\ (all_fail gethostbyname domains ->
      (ips <- Flattener.executor_map num_workers
                (Flattener.get_ip gethostbyname) domains ;;
       assign_ipaddress domains ips)
      = (domains, Py.Ok (records NA domains)))
  /\ Flattener2.resolve_ips_async gethostbyname2 domains
     = (domains, Py.Ok (records (answer_async gethostbyname2) domains))
  /\ (all_fail_async gethostbyname2 domains ->
      Flattener2.resolve_ips_async gethostbyname2 domains
      = (domains, Py.Ok (records NA domains)))
  /\ List.length (records NA domains) = List.length domains
  /\ (forall rec, In rec (records NA domains) -> record_ip rec = "NA").
Proof.
  intros Hn. repeat split.
  - intros H. now apply resolve_threadpool.
  - intros F. rewrite resolve_threadpool; [| exact Hn |].
    + do 2 f_equal. apply records_ext. intros d Hd.
      destruct (F d Hd) as (e & E & _). unfold answer, NA. now rewrite E.
    + intros d e Hd E. destruct (F d Hd) as (e' & E' & C). congruence.
  - apply resolve_ips_async_answers.
  - intros F. rewrite resolve_ips_async_answers. do 2 f_equal.
    apply records_ext. intros d Hd.
    destruct (F d Hd) as (e & E). unfold answer_async, NA. now rewrite E.
  - unfold records. apply length_map.
  - unfold records. intros rec Hrec. apply in_map_iff in Hrec.
    now destruct Hrec as (d & <- & _).
Qed.

Lemma handled_failures_become_NA_witness :
  Flattener2.resolve_ips_async Scenario.nxdomain_async ["a.test"; "b.test"]
  = (["a.test"; "b.test"],
     Py.Ok [mkDomainRecord "a.test" "NA"; mkDomainRecord "b.test" "NA"])
  /\ (ips <- Flattener.executor_map Flattener.default_num_workers
                (Flattener.get_ip Scenario.nxdomain) ["a.test"; "b.test"] ;;
       assign_ipaddress ["a.test"; "b.test"] ips)
     = (["a.test"; "b.test"],
        Py.Ok [mkDomainRecord "a.test" "NA"; mkDomainRecord "b.test" "NA"]).
Proof.
  destruct (handled_failures_become_NA
              Scenario.nxdomain Scenario.nxdomain_async
              ["a.test"; "b.test"] Flattener.default_num_workers eq_refl)
    as (_ & T & _ & A & _).
  split.
  - apply A. intros d _. now exists Py.DNSError.
  - apply T. intros d _. now exists Py.GaiError.
Defined.

(** C2 fails in [flattener.py].  The handler of [get_ip] names
    [socket.gaierror] and [socket.timeout] only.  For the host name
    [a..b] the lookup raises [UnicodeError]: [get_ip] lets it through, it
    comes out of [list(executor.map(...))], and [parallelize_domain_ip]
    ends with that exception instead of a table.  On the same table
    [get_ip_async] of [flattener2.py], whose handler is
    [except Exception], gives ["NA"] and the enrichment completes. *)
Theorem get_ip_lets_other_exceptions_through :
  Flattener.extract_domain "http://a..b/x" = "a..b"
  /\ Flattener.get_ip Scenario.gethostbyname_idna "a..b"
     = (["a..b"], Py.Raise Py.UnicodeError)
  /\ snd (Flattener.parallelize_domain_ip
            Scenario.gethostbyname_idna Scenario.rows_empty_label Flattener.default_num_workers)
     = Py.Raise Py.UnicodeError
  /\ Flattener2.get_ip_async Scenario.gethostbyname_async "a..b"
     = (["a..b"], Py.Ok "NA")
  /\ snd (Flattener2.parallelize_domain_ip
            Scenario.gethostbyname_async Scenario.rows_empty_label)
     = Py.Ok [ mkEnrichedRow (mkRow "https://a.test/1" []) "a.test" "1.2.3.4";
               mkEnrichedRow (mkRow "http://a..b/x" []) "a..b" "NA" ].
Proof. repeat split; reflexivity. Qed.

(** The part of C4 that holds: when, for every domain of the table, the
    two resolvers give the same outcome (the same first address, or a
    failure that [get_ip] handles on the side of [flattener.py]), the two
    files look up the same domains and return the same table. *)
Theorem variants_agree_on_handled_outcomes
        (gethostbyname : string -> Py.result string)
        (gethostbyname2 : string -> Py.result Flattener2.host_result)
        (df : list Row) (num_workers : Z) :
  (0 < num_workers)%Z ->
  (forall d, In d (row_domains df) ->
             same_outcome (gethostbyname d) (gethostbyname2 d)) ->
  Flattener.parallelize_domain_ip gethostbyname df num_workers =
  Flattener2.parallelize_domain_ip gethostbyname2 df.
Proof.
  intros Hn S.
  rewrite parallelize_threadpool, parallelize_async; [| exact Hn |].
  - do 2 f_equal. apply enrich_ext. intros d Hd.
    unfold answer, answer_async.
    destruct (S d Hd) as [ip others | e e' C | e C]; reflexivity.
  - intros d e Hd E. specialize (S d Hd). rewrite E in S.
    inversion S; assumption.
Qed.

Lemma variants_agree_on_handled_outcomes_witness :
  Flattener.parallelize_domain_ip Scenario.gethostbyname Scenario.rows Flattener.default_num_workers =
  Flattener2.parallelize_domain_ip Scenario.gethostbyname_async Scenario.rows.
Proof.
  apply variants_agree_on_handled_outcomes; [reflexivity|].
  intros d _. unfold Scenario.gethostbyname, Scenario.gethostbyname_async.
  destruct (String.eqb d "a.test"); constructor. reflexivity.
Defined.

(** C4 fails.  On the table with the host name [a..b], and with both
    resolvers failing for that name, [flattener.py] ends with the
    exception and [flattener2.py] returns the table with ["NA"] for it:
    the two outputs differ. *)
Theorem variants_differ_on_other_exceptions :
  snd (Flattener.parallelize_domain_ip
         Scenario.gethostbyname_idna Scenario.rows_empty_label Flattener.default_num_workers)
  = Py.Raise Py.UnicodeError
  /\ snd (Flattener2.parallelize_domain_ip
            Scenario.gethostbyname_async Scenario.rows_empty_label)
     = Py.Ok [ mkEnrichedRow (mkRow "https://a.test/1" []) "a.test" "1.2.3.4";
               mkEnrichedRow (mkRow "http://a..b/x" []) "a..b" "NA" ]
  /\ Flattener.parallelize_domain_ip
       Scenario.gethostbyname_idna Scenario.rows_empty_label Flattener.default_num_workers
     <> Flattener2.parallelize_domain_ip
          Scenario.gethostbyname_async Scenario.rows_empty_label.
Proof.
  repeat split; try reflexivity.
  intros E. apply (f_equal snd) in E. vm_compute in E. discriminate E.
Qed.

End Enrichment.

(* ================================================================== *)
(** * The join, the lookups made and the row order *)

Section JoinClaims.
Import Pandas Outcome.


(** C5, as stated, fails in its second half: a row whose extracted domain
    is ["NA"] does not receive [ipaddress = "NA"].  In the table of three
    rows the row with the URL [bad] has the domain ["NA"], and the output
    of neither file has a row for it. *)
Lemma NA_row_receives_no_ipaddress :
  Flattener.extract_domain "bad" = "NA"
  /\ ~ (exists out o,
          snd (Flattener.parallelize_domain_ip
                 Scenario.gethostbyname Scenario.rows
                 Flattener.default_num_workers) = Py.Ok out /\
          In o out /\
          enriched_row o = mkRow "bad" [("principal_name", "Q")] /\
          ipaddress o = "NA")
  /\ ~ (exists out o,
          snd (Flattener2.parallelize_domain_ip
                 Scenario.gethostbyname_async Scenario.rows) = Py.Ok out /\
          In o out /\
          enriched_row o = mkRow "bad" [("principal_name", "Q")] /\
          ipaddress o = "NA").
Proof.
  split; [reflexivity|].
  split; intros (out & o & E & Ho & Er & _); vm_compute in E;
    injection E as <-; destruct Ho as [<-|[<-|[]]]; discriminate Er.
Qed.

(** C5, amended.  In both files, when the lookups answer or fail with an
    error that [get_ip] handles: the resolved mapping has one record per
    distinct domain other than ["NA"], holding the answer of the lookup
    for that domain; the output has one row for each input row whose
    domain is not ["NA"], in order, and each output row carries the domain
    extracted from its URL and the IP of the record of that domain, which
    is in the mapping: the same value for every row of one domain.  A row
    whose domain is ["NA"] is dropped before the join and is not in the
    output; no row that reaches the join has a domain absent from the
    mapping. *)
Theorem join_gives_each_kept_row_its_record
        (gethostbyname : string -> Py.result string)
        (gethostbyname2 : string -> Py.result Flattener2.host_result)
        (df : list Row) (num_workers : Z) :
  (0 < num_workers)%Z -> handled gethostbyname (row_domains df) ->
  exists (recs recs2 : list DomainRecord) (out out2 : list EnrichedRow),
    (ips <- Flattener.executor_map num_workers
              (Flattener.get_ip gethostbyname) (unique (row_domains df)) ;;
     assign_ipaddress (unique (row_domains df)) ips)
    = (unique (row_domains df), Py.Ok recs)
    /\ Flattener2.resolve_ips_async gethostbyname2 (unique (row_domains df))
       = (unique (row_domains df), Py.Ok recs2)
    /\ snd (Flattener.parallelize_domain_ip gethostbyname df num_workers)
       = Py.Ok out
    /\ snd (Flattener2.parallelize_domain_ip gethostbyname2 df) = Py.Ok out2
    /\ map record_domain recs = unique (row_domains df)
    /\ map record_domain recs2 = unique (row_domains df)
    /\ ~ In "NA" (unique (row_domains df))
    /\ (forall rec, In rec recs ->
          record_ip rec = answer gethostbyname (record_domain rec))
    /\ (forall rec, In rec recs2 ->
          record_ip rec = answer_async gethostbyname2 (record_domain rec))
    /\ map enriched_row out = filter keeps df
    /\ map enriched_row out2 = filter keeps df
    /\ (forall o, In o out ->
          enriched_domain o
          = Flattener.extract_domain (infringing_urls (enriched_row o)) /\
          exists rec, In rec recs /\ record_domain rec = enriched_domain o /\
                      ipaddress o = record_ip rec)
    /\ (forall o, In o out2 ->
          enriched_domain o
          = Flattener2.extract_domain (infringing_urls (enriched_row o)) /\
          exists rec, In rec recs2 /\ record_domain rec = enriched_domain o /\
                      ipaddress o = record_ip rec)
    /\ (forall rec o, In rec recs -> In o out ->
          enriched_domain o = record_domain rec ->
          ipaddress o = record_ip rec)
    /\ (forall rec o, In rec recs2 -> In o out2 ->
          enriched_domain o = record_domain rec ->
          ipaddress o = record_ip rec)
    /\ (forall r, In r df ->
          Flattener.extract_domain (infringing_urls r) = "NA" ->
          ~ In r (map enriched_row out) /\ ~ In r (map enriched_row out2)).
Proof.
  intros Hn H.
  assert (HU : handled gethostbyname (unique (row_domains df))).
  { intros d e Hd. apply H. now apply unique_In. }
  assert (Keys : forall f,
            map record_domain (records f (unique (row_domains df)))
            = unique (row_domains df)).
  { intros f. unfold records. rewrite map_map. apply map_id. }
  assert (Ip : forall f rec,
            In rec (records f (unique (row_domains df))) ->
            record_ip rec = f (record_domain rec)).
  { intros f rec Hrec. unfold records in Hrec. apply in_map_iff in Hrec.
    now destruct Hrec as (d & <- & _). }
  assert (Row : forall f o, In o (enrich f df) ->
            enriched_domain o
            = Flattener.extract_domain (infringing_urls (enriched_row o)) /\
            exists rec, In rec (records f (unique (row_domains df))) /\
                        record_domain rec = enriched_domain o /\
                        ipaddress o = record_ip rec).
  { intros f o Ho.
    pose proof Ho as Ho'. apply in_enrich in Ho'.
    destruct Ho' as (Hr & Ed & Nna & Eip).
    split; [exact Ed|].
    exists (mkDomainRecord (enriched_domain o) (f (enriched_domain o))).
    split; [|split; [reflexivity | exact Eip]].
    unfold records.
    apply (in_map (fun d => mkDomainRecord d (f d))).
    apply unique_In, in_row_domains. split; [exact Nna|].
    exists (enriched_row o). split; [exact Hr | now rewrite Ed]. }
  assert (Same : forall f rec o,
            In rec (records f (unique (row_domains df))) ->
            In o (enrich f df) ->
            enriched_domain o = record_domain rec ->
            ipaddress o = record_ip rec).
  { intros f rec o Hrec Ho E.
    apply in_enrich in Ho. destruct Ho as (_ & _ & _ & ->).
    rewrite (Ip f rec Hrec). now rewrite E. }
  exists (records (answer gethostbyname) (unique (row_domains df))),
         (records (answer_async gethostbyname2) (unique (row_domains df))),
         (enrich (answer gethostbyname) df),
         (enrich (answer_async gethostbyname2) df).
  rewrite (parallelize_threadpool _ _ _ Hn H), parallelize_async.
  rewrite (resolve_threadpool _ _ _ Hn HU), resolve_ips_async_answers.
  rewrite !enrich_rows, !Keys. cbn [snd].
  do 6 (split; [reflexivity|]).
  split.
  { intros D. apply unique_In, in_row_domains in D. now destruct D. }
  split; [apply Ip|]. split; [apply Ip|].
  do 2 (split; [reflexivity|]).
  split; [apply Row|]. split; [apply Row|].
  split; [apply Same|]. split; [apply Same|].
  intros r Hr E.
  assert (N : ~ In r (filter keeps df)).
  { intros D. apply filter_In in D. destruct D as [_ K].
    apply keeps_domain in K. unfold row_domain in K. contradiction. }
  split; exact N.
Qed.

Lemma join_gives_each_kept_row_its_record_witness :
  exists out,
    snd (Flattener.parallelize_domain_ip
           Scenario.gethostbyname Scenario.rows
           Flattener.default_num_workers) = Py.Ok out /\
    map enriched_row out
    = [ mkRow "https://a.test/1" [("principal_name", "P")];
        mkRow "https://a.test/2" [("principal_name", "P")] ] /\
    forall o, In o out ->
      exists rec,
        record_ip rec = Outcome.answer Scenario.gethostbyname
                          (record_domain rec) /\
        record_domain rec = enriched_domain o /\
        ipaddress o = record_ip rec.
Proof.
  destruct (join_gives_each_kept_row_its_record
              Scenario.gethostbyname Scenario.gethostbyname_async
              Scenario.rows Flattener.default_num_workers
              eq_refl (handled_scenario _))
    as (recs & recs2 & out & out2 & _ & _ & E & _ & _ & _ & _ & Ip & _
        & R & _ & Ro & _).
  exists out. split; [exact E|]. split; [exact R|].
  intros o Ho. destruct (Ro o Ho) as (_ & rec & Hrec & Ed & Ei).
  exists rec. split; [now apply Ip | split; assumption].
Defined.





End JoinClaims.

(* ================================================================== *)
(** * More on the extractor *)

Section ExtractDomainMore.
Local Open Scope string_scope.
Import Re Url.

Lemma no_slash_append (a b : string) :
  no_slash (a ++ b) <-> no_slash a /\ no_slash b.
Proof.
  induction a as [|c a IH]; simpl; [tauto|]. rewrite IH. tauto.
Qed.

Lemma slash_free_no_occurrence (s : string) :
  no_slash s -> ~ has_occurrence s.
Proof.
  intros H (pre & t & -> & secure & c & rest & _ & ->).
  apply no_slash_append in H. destruct H as [_ H].
  destruct secure; simpl in H; intuition congruence.
Qed.

Lemma extract_domain_host_shape (s : string) :
  Flattener.extract_domain s <> "" /\ no_slash (Flattener.extract_domain s).
Proof.
  destruct (search Flattener.pattern s) as [m|] eqn:E.
  - destruct (search_Some _ _ E) as (pre & t & _ & M & _).
    destruct (match_here_Some _ _ M)
      as (secure & www & host & tail & -> & _ & Hne & Hh & _).
    rewrite (extract_domain_search _ _ E). now split.
  - apply search_None in E.
    rewrite (extract_domain_no_occurrence _ E).
    split; [discriminate | simpl; repeat split; discriminate].
Qed.

(** X1.  Whatever the input, the result of [extract_domain] (of either
    file) is never the empty string and never contains a ['/']. *)
Theorem extract_domain_result_shape (s : string) :
  Flattener.extract_domain s <> ""
  /\ no_slash (Flattener.extract_domain s)
  /\ Flattener2.extract_domain s <> ""
  /\ no_slash (Flattener2.extract_domain s).
Proof.
  destruct (extract_domain_host_shape s) as [H1 H2]. auto.
Qed.

(** X2.  A string without ['/'], a bare host for one, has no match and
    gives ["NA"]; so extracting from a result of [extract_domain] always
    gives ["NA"]. *)
Theorem extract_domain_of_slash_free (s : string) :
  (no_slash s -> Flattener.extract_domain s = "NA")
  /\ Flattener.extract_domain (Flattener.extract_domain s) = "NA"
  /\ Flattener2.extract_domain (Flattener2.extract_domain s) = "NA".
Proof.
  assert (N : forall t, no_slash t -> Flattener.extract_domain t = "NA").
  { intros t H. now apply extract_domain_no_occurrence,
                            slash_free_no_occurrence. }
  split; [apply N|].
  split; apply N; apply extract_domain_host_shape.
Qed.

Lemma extract_domain_of_slash_free_witness :
  Flattener.extract_domain "www.example.com:8080" = "NA".
Proof.
  apply (proj1 (extract_domain_of_slash_free "www.example.com:8080")).
  simpl. repeat split; discriminate.
Defined.

(** X3.  When nothing but the end of the string or a ['/'] follows
    [http(s)://www.], the optional [www.] is given back and becomes the
    host: the result is ["www."], not ["NA"]. *)
Theorem extract_domain_www_alone (secure : bool) (tail : string) :
  ends_host tail ->
  Flattener.extract_domain (scheme secure ++ "://" ++ "www." ++ tail) = "www."
  /\ Flattener2.extract_domain (scheme secure ++ "://" ++ "www." ++ tail)
     = "www.".
Proof.
  intros Ht.
  assert (E : Flattener.extract_domain
                (scheme secure ++ "://" ++ "www." ++ tail) = "www.").
  { apply (extract_domain_first "" secure false "www." tail); auto.
    - discriminate.
    - simpl. repeat split; discriminate.
    - intros _ h Hh D. injection D as D. destruct h; congruence.
    - apply first_at_nil. }
  split; exact E.
Qed.

Lemma extract_domain_www_alone_witness :
  Flattener.extract_domain ("https" ++ "://" ++ "www." ++ "/index.html")
  = "www.".
Proof.
  apply (extract_domain_www_alone true "/index.html"). reflexivity.
Defined.

End ExtractDomainMore.

(* ================================================================== *)
(** * More on the two enrichments *)

Section EnrichmentMore.
Import Pandas Outcome.

Lemma parallelize_threadpool_steps
      (gethostbyname : string -> Py.result string)
      (df : list Row) (num_workers : Z) :
  Flattener.parallelize_domain_ip gethostbyname df num_workers =
  (ips <- Flattener.executor_map num_workers
            (Flattener.get_ip gethostbyname) (unique (row_domains df)) ;;
   recs <- assign_ipaddress (unique (row_domains df)) ips ;;
   Py.ret (fillna_ipaddress "NA"
             (merge_left
                (map (fun r => mkDomainRow r (row_domain r))
                     (filter keeps df))
                recs))).
Proof.
  unfold Flattener.parallelize_domain_ip.
  now rewrite where_assign, domain_column.
Qed.

Lemma mapM_ext {A B : Type} (f f' : A -> Py.io B) (xs : list A) :
  (forall x, In x xs -> f x = f' x) -> Py.mapM f xs = Py.mapM f' xs.
Proof.
  induction xs as [|x xs IH]; intros H; simpl; [reflexivity|].
  rewrite (H x) by now left.
  rewrite IH by (intros; apply H; now right). reflexivity.
Qed.

Lemma mapM_length {A B : Type} (f : A -> Py.io B) (xs : list A)
      (log : list string) (ys : list B) :
  Py.mapM f xs = (log, Py.Ok ys) -> List.length ys = List.length xs.
Proof.
  revert log ys. induction xs as [|x xs IH]; simpl; intros log ys H.
  - injection H as _ <-. reflexivity.
  - unfold Py.bind in H.
    destruct (f x) as [l1 [y|e]]; [|discriminate].
    destruct (Py.mapM f xs) as [l2 [ys'|e]] eqn:E; [|discriminate].
    simpl in H. injection H as _ <-. simpl. f_equal. exact (IH _ _ eq_refl).
Qed.

Lemma mapM_raise_inv {A B : Type} (f : A -> Py.io B) (xs : list A)
      (e : Py.exn) :
  snd (Py.mapM f xs) = Py.Raise e ->
  exists x, In x xs /\ snd (f x) = Py.Raise e.
Proof.
  induction xs as [|x xs IH]; simpl; intros H; [discriminate|].
  unfold Py.bind in H.
  destruct (f x) as [l1 [y|e1]] eqn:Ex.
  - destruct (Py.mapM f xs) as [l2 [ys'|e2]] eqn:E.
    + simpl in H. discriminate.
    + simpl in H. destruct (IH H) as (x' & Hx' & Hr).
      exists x'. split; [now right | exact Hr].
  - simpl in H. injection H as ->. exists x. rewrite Ex.
    split; [now left | reflexivity].
Qed.

Lemma mapM_raises_first {A B : Type} (f : A -> Py.io B)
      (xs : list A) (x : A) (ys : list A) (e : Py.exn) :
  (forall a, In a xs -> exists b, snd (f a) = Py.Ok b) ->
  snd (f x) = Py.Raise e ->
  snd (Py.mapM f (xs ++ x :: ys)) = Py.Raise e.
Proof.
  intros Hxs Hx. induction xs as [|a xs IH]; simpl.
  - unfold Py.bind. destruct (f x) as [l [b|e']]; simpl in Hx;
      [discriminate|]. injection Hx as ->. reflexivity.
  - unfold Py.bind.
    destruct (Hxs a (or_introl eq_refl)) as (b & Hb).
    destruct (f a) as [l [b'|e']]; simpl in Hb; [|discriminate].
    assert (IH' := IH (fun a' Ha' => Hxs a' (or_intror Ha'))).
    destruct (Py.mapM f (xs ++ x :: ys)) as [l2 [zs|e2]]; simpl in IH';
      [discriminate|]. simpl. exact IH'.
Qed.

Lemma get_ip_raises (gethostbyname : string -> Py.result string)
      (d : string) (e : Py.exn) :
  snd (Flattener.get_ip gethostbyname d) = Py.Raise e <->
  gethostbyname d = Py.Raise e /\ Flattener.gaierror_or_timeout e = false.
Proof.
  unfold Flattener.get_ip, Py.try_except, Py.lookup.
  destruct (gethostbyname d) as [ip|e'] eqn:E.
  - simpl. split; [discriminate | intros [H _]; discriminate].
  - destruct (Flattener.gaierror_or_timeout e') eqn:C; simpl.
    + split; [discriminate|]. intros [H1 H2]. congruence.
    + split; [intros [= ->]; auto | intros [[= ->] _]; reflexivity].
Qed.

Lemma get_ip_returns (gethostbyname : string -> Py.result string)
      (d : string) :
  (forall e, gethostbyname d = Py.Raise e ->
             Flattener.gaierror_or_timeout e = true) ->
  exists ip, snd (Flattener.get_ip gethostbyname d) = Py.Ok ip.
Proof.
  intros H. rewrite (get_ip_answer _ _ H). now eexists.
Qed.

(** X5.  [flattener.py]: when some lookup raises an exception that
    [get_ip] does not handle, the enrichment ends with the exception of the
    first such domain, in the order in which the domains first appear in
    the table, and returns no table. *)
Theorem first_unhandled_exception_propagates
        (gethostbyname : string -> Py.result string)
        (df : list Row) (num_workers : Z)
        (before : list string) (d : string) (after : list string)
        (e : Py.exn) :
  (0 < num_workers)%Z ->
  unique (row_domains df) = before ++ d :: after ->
  handled gethostbyname before ->
  gethostbyname d = Py.Raise e ->
  Flattener.gaierror_or_timeout e = false ->
  snd (Flattener.parallelize_domain_ip gethostbyname df num_workers)
  = Py.Raise e.
Proof.
  intros Hn U H E C.
  rewrite parallelize_threadpool_steps, U. unfold Flattener.executor_map.
  destruct (Z.leb_spec num_workers 0) as [L|_]; [lia|].
  assert (R : snd (Py.mapM (Flattener.get_ip gethostbyname)
                           (before ++ d :: after)) = Py.Raise e).
  { apply mapM_raises_first.
    - intros a Ha. apply get_ip_returns. intros e'. now apply H.
    - now apply get_ip_raises. }
  unfold Py.bind at 1.
  destruct (Py.mapM (Flattener.get_ip gethostbyname) (before ++ d :: after))
    as [log [ips|e']]; simpl in R; [discriminate|].
  injection R as ->. reflexivity.
Qed.

Lemma first_unhandled_exception_propagates_witness :
  snd (Flattener.parallelize_domain_ip
         Scenario.gethostbyname_idna Scenario.rows_empty_label 7)
  = Py.Raise Py.UnicodeError.
Proof.
  apply (first_unhandled_exception_propagates
           Scenario.gethostbyname_idna Scenario.rows_empty_label 7
           ["a.test"] "a..b" []).
  - reflexivity.
  - reflexivity.
  - intros d e [<-|[]] E. discriminate E.
  - reflexivity.
  - reflexivity.
Defined.

(** X6.  [flattener.py], on a table that has no column named
    [ipaddress] yet: the only exceptions that come out of the enrichment
    are [ValueError] for a non-positive [num_workers] and the exception of
    a lookup, for a domain of the table, that is neither [socket.gaierror]
    nor [socket.timeout]. *)
Theorem threadpool_exceptions_are_lookup_exceptions
        (gethostbyname : string -> Py.result string)
        (df : list Row) (num_workers : Z) (e : Py.exn) :
  no_ipaddress_column df ->
  snd (Flattener.parallelize_domain_ip gethostbyname df num_workers)
  = Py.Raise e ->
  ((num_workers <= 0)%Z /\ e = Py.ValueError)
  \/ ((0 < num_workers)%Z /\
      exists d,
        In d (row_domains df) /\ gethostbyname d = Py.Raise e /\
        Flattener.gaierror_or_timeout e = false).
Proof.
  intros _.
  rewrite parallelize_threadpool_steps. unfold Flattener.executor_map.
  destruct (Z.leb_spec num_workers 0) as [L|L].
  - simpl. intros [= <-]. now left.
  - intros H. right. split; [exact L|].
    destruct (Py.mapM (Flattener.get_ip gethostbyname)
                      (unique (row_domains df))) as [log [ips|e']] eqn:M.
    + exfalso. pose proof (mapM_length _ _ _ _ M) as Len.
      unfold Py.bind, assign_ipaddress in H.
      rewrite Len, Nat.eqb_refl in H. simpl in H. discriminate.
    + simpl in H. injection H as ->.
      destruct (mapM_raise_inv (Flattener.get_ip gethostbyname)
                               (unique (row_domains df)) e) as (d & Hd & R).
      { now rewrite M. }
      apply get_ip_raises in R. exists d. split; [now apply unique_In | exact R].
Qed.

Lemma rows_empty_label_no_ipaddress :
  no_ipaddress_column Scenario.rows_empty_label.
Proof. intros r [<-|[<-|[]]]; simpl; tauto. Qed.

Lemma threadpool_exceptions_are_lookup_exceptions_witness :
  exists d,
    In d (row_domains Scenario.rows_empty_label) /\
    Scenario.gethostbyname_idna d = Py.Raise Py.UnicodeError.
Proof.
  destruct (threadpool_exceptions_are_lookup_exceptions
              Scenario.gethostbyname_idna Scenario.rows_empty_label
              Flattener.default_num_workers Py.UnicodeError
              rows_empty_label_no_ipaddress eq_refl)
    as [[L _]|[_ (d & Hd & E & _)]].
  - exfalso. revert L. unfold Flattener.default_num_workers. lia.
  - exists d. auto.
Defined.

(** X7.  [flattener2.py], on a table that has no column named
    [ipaddress] yet: the enrichment never raises, whatever the resolver
    does, exceptions of any class included; [resolve_ips_async] returns one
    record per domain it was given, in the same order, and the table
    returned has one row per input row with a domain. *)
Theorem async_enrichment_never_raises
        (gethostbyname : string -> Py.result Flattener2.host_result)
        (df : list Row) (domains : list string) :
  no_ipaddress_column df ->
  (exists recs,
      Flattener2.resolve_ips_async gethostbyname domains
      = (domains, Py.Ok recs) /\
      map record_domain recs = domains)
  /\ exists out,
      Flattener2.parallelize_domain_ip gethostbyname df
      = (unique (row_domains df), Py.Ok out) /\
      List.length out = List.length (filter keeps df).
Proof.
  intros _. split.
  - exists (records (answer_async gethostbyname) domains).
    split; [apply resolve_ips_async_answers|].
    unfold records. rewrite map_map. apply map_id.
  - exists (enrich (answer_async gethostbyname) df).
    split; [apply parallelize_async|].
    now rewrite <- (enrich_rows (answer_async gethostbyname)), length_map.
Qed.

Lemma async_enrichment_never_raises_witness :
  exists out,
    Flattener2.parallelize_domain_ip
      (fun _ => Py.Raise Py.OSError) Scenario.rows_empty_label
    = (unique (row_domains Scenario.rows_empty_label), Py.Ok out) /\
    List.length out = 2.
Proof.
  exact (proj2 (async_enrichment_never_raises
                  (fun _ => Py.Raise Py.OSError)
                  Scenario.rows_empty_label []
                  rows_empty_label_no_ipaddress)).
Defined.

(** X8.  A table in which no URL gives a domain, the empty table for one,
    is enriched to the empty table without any lookup, by both files. *)
Theorem no_domain_no_lookup
        (gethostbyname : string -> Py.result string)
        (gethostbyname2 : string -> Py.result Flattener2.host_result)
        (df : list Row) (num_workers : Z) :
  (0 < num_workers)%Z ->
  (forall r, In r df ->
             Flattener.extract_domain (infringing_urls r) = "NA") ->
  Flattener.parallelize_domain_ip gethostbyname df num_workers
  = ([], Py.Ok [])
  /\ Flattener2.parallelize_domain_ip gethostbyname2 df = ([], Py.Ok []).
Proof.
  intros Hn H.
  assert (F : filter keeps df = []).
  { induction df as [|r df IH]; [reflexivity|]. simpl.
    unfold keeps at 1. rewrite (H r) by now left. simpl.
    apply IH. intros; apply H; now right. }
  assert (D : row_domains df = []) by (unfold row_domains; now rewrite F).
  rewrite parallelize_threadpool, parallelize_async; [| exact Hn |].
  - unfold enrich. rewrite D, F. split; reflexivity.
  - rewrite D. intros d e [].
Qed.

Lemma no_domain_no_lookup_witness :
  Flattener.parallelize_domain_ip
    Scenario.gethostbyname_idna
    [mkRow "bad" []; mkRow "ftp://example.com/x" []] 3
  = ([], Py.Ok []).
Proof.
  apply (no_domain_no_lookup
           Scenario.gethostbyname_idna Scenario.gethostbyname_async
           [mkRow "bad" []; mkRow "ftp://example.com/x" []] 3).
  - reflexivity.
  - intros r [<-|[<-|[]]]; reflexivity.
Defined.

End EnrichmentMore.

(* ================================================================== *)
(** * How the enrichment depends on the table and on the resolver *)

Section EnrichmentStructure.
Import Pandas Outcome.

Lemma row_domains_app (df1 df2 : list Row) :
  row_domains (df1 ++ df2) = row_domains df1 ++ row_domains df2.
Proof. unfold row_domains. now rewrite filter_app, map_app. Qed.

Lemma enrich_app (ip_of : string -> string) (df1 df2 : list Row) :
  enrich ip_of (df1 ++ df2) = enrich ip_of df1 ++ enrich ip_of df2.
Proof. unfold enrich. now rewrite filter_app, map_app. Qed.

Lemma handled_app (gethostbyname : string -> Py.result string)
      (l1 l2 : list string) :
  handled gethostbyname (l1 ++ l2) <->
  handled gethostbyname l1 /\ handled gethostbyname l2.
Proof.
  unfold handled. split.
  - intros H. split; intros d e Hd; apply H; apply in_or_app; auto.
  - intros [H1 H2] d e Hd. apply in_app_or in Hd. destruct Hd; eauto.
Qed.

(** X9.  Enriching two tables one after the other and concatenating the
    results gives the rows of enriching their concatenation, for both
    files; the domains looked up for the concatenation are those looked up
    for either part. *)
Theorem enrichment_of_concatenation
        (gethostbyname : string -> Py.result string)
        (gethostbyname2 : string -> Py.result Flattener2.host_result)
        (df1 df2 : list Row) (num_workers : Z) :
  (0 < num_workers)%Z ->
  handled gethostbyname (row_domains (df1 ++ df2)) ->
  (exists out1 out2,
      snd (Flattener.parallelize_domain_ip gethostbyname df1 num_workers)
      = Py.Ok out1 /\
      snd (Flattener.parallelize_domain_ip gethostbyname df2 num_workers)
      = Py.Ok out2 /\
      snd (Flattener.parallelize_domain_ip
             gethostbyname (df1 ++ df2) num_workers)
      = Py.Ok (out1 ++ out2))
  /\ (exists out1 out2,
      snd (Flattener2.parallelize_domain_ip gethostbyname2 df1)
      = Py.Ok out1 /\
      snd (Flattener2.parallelize_domain_ip gethostbyname2 df2)
      = Py.Ok out2 /\
      snd (Flattener2.parallelize_domain_ip gethostbyname2 (df1 ++ df2))
      = Py.Ok (out1 ++ out2))
  /\ (forall d,
         In d (fst (Flattener.parallelize_domain_ip
                      gethostbyname (df1 ++ df2) num_workers)) <->
         In d (fst (Flattener.parallelize_domain_ip
                      gethostbyname df1 num_workers)) \/
         In d (fst (Flattener.parallelize_domain_ip
                      gethostbyname df2 num_workers))).
Proof.
  intros Hn H.
  pose proof H as H'. rewrite row_domains_app in H'.
  apply handled_app in H'. destruct H' as [H1 H2].
  rewrite !parallelize_async.
  rewrite (parallelize_threadpool _ _ _ Hn H),
          (parallelize_threadpool _ _ _ Hn H1),
          (parallelize_threadpool _ _ _ Hn H2).
  cbn [fst snd]. split; [|split].
  - exists (enrich (answer gethostbyname) df1),
           (enrich (answer gethostbyname) df2).
    now rewrite enrich_app.
  - exists (enrich (answer_async gethostbyname2) df1),
           (enrich (answer_async gethostbyname2) df2).
    now rewrite enrich_app.
  - intros d. rewrite !unique_In, row_domains_app. apply in_app_iff.
Qed.

Lemma enrichment_of_concatenation_witness :
  exists out1 out2,
    snd (Flattener.parallelize_domain_ip
           Scenario.gethostbyname Scenario.rows 4) = Py.Ok out1 /\
    snd (Flattener.parallelize_domain_ip
           Scenario.gethostbyname [mkRow "http://b.test/" []] 4)
    = Py.Ok out2 /\
    snd (Flattener.parallelize_domain_ip
           Scenario.gethostbyname
           (Scenario.rows ++ [mkRow "http://b.test/" []]) 4)
    = Py.Ok (out1 ++ out2).
Proof.
  exact (proj1 (enrichment_of_concatenation
                  Scenario.gethostbyname Scenario.gethostbyname_async
                  Scenario.rows [mkRow "http://b.test/" []] 4
                  eq_refl (handled_scenario _))).
Defined.

(** X10.  The result depends on the resolver only through its outcomes for
    the domains extracted from the table: two resolvers with the same
    outcomes there give the same lookups and the same result, exceptions
    included, in both files. *)
Theorem resolver_matters_on_table_domains_only
        (g g' : string -> Py.result string)
        (g2 g2' : string -> Py.result Flattener2.host_result)
        (df : list Row) (num_workers : Z) :
  ((forall d, In d (row_domains df) -> g d = g' d) ->
   Flattener.parallelize_domain_ip g df num_workers
   = Flattener.parallelize_domain_ip g' df num_workers)
  /\ ((forall d, In d (row_domains df) -> g2 d = g2' d) ->
      Flattener2.parallelize_domain_ip g2 df
      = Flattener2.parallelize_domain_ip g2' df).
Proof.
  split; intros H.
  - rewrite !parallelize_threadpool_steps. unfold Flattener.executor_map.
    destruct (num_workers <=? 0)%Z; [reflexivity|].
    rewrite (mapM_ext (Flattener.get_ip g) (Flattener.get_ip g'));
      [reflexivity|].
    intros d Hd. apply (proj1 (unique_In _ _)) in Hd.
    unfold Flattener.get_ip, Py.lookup. now rewrite (H d Hd).
  - rewrite !parallelize_async. do 2 f_equal. apply enrich_ext.
    intros d Hd. unfold answer_async. now rewrite (H d Hd).
Qed.

Lemma resolver_matters_on_table_domains_only_witness :
  Flattener.parallelize_domain_ip
    Scenario.gethostbyname Scenario.rows 2
  = Flattener.parallelize_domain_ip
      Scenario.gethostbyname_idna Scenario.rows 2.
Proof.
  apply (proj1 (resolver_matters_on_table_domains_only
                  Scenario.gethostbyname Scenario.gethostbyname_idna
                  Scenario.gethostbyname_async Scenario.gethostbyname_async
                  Scenario.rows 2)).
  intros d [<-|[<-|[]]]; reflexivity.
Defined.

Lemma assign_ipaddress_keys (domains ips : list string)
      (recs : list DomainRecord) :
  assign_ipaddress domains ips = ([], Py.Ok recs) ->
  map record_domain recs = domains.
Proof.
  unfold assign_ipaddress.
  destruct (Nat.eqb_spec (List.length ips) (List.length domains)) as [E|N];
    [|discriminate].
  intros [= <-]. rewrite map_map. cbn [record_domain].
  revert ips E. induction domains as [|d ds IH]; intros [|i ips] E;
    simpl in *; try reflexivity; try discriminate.
  f_equal. apply IH. now injection E.
Qed.

Lemma merge_left_complete (left : list DomainRow)
      (right : list DomainRecord) :
  NoDup (map record_domain right) ->
  (forall l, In l left -> In (domain l) (map record_domain right)) ->
  map merged_row (merge_left left right) = left /\
  (forall m, In m (merge_left left right) -> merged_ip m <> None).
Proof.
  intros N H. unfold merge_left.
  match goal with |- map _ (flat_map ?f _) = _ /\ _ => set (F := f) end.
  induction left as [|l left IH]; [split; [reflexivity | intros m []]|].
  change (flat_map F (l :: left)) with (F l ++ flat_map F left).
  destruct IH as [IH1 IH2]; [intros; apply H; now right|].
  destruct (proj1 (in_keys (domain l) right) (H l (or_introl eq_refl)))
    as (rec & Hrec & E).
  assert (P : F l = [mkMergedRow l (Some (record_ip rec))]).
  { unfold F. rewrite <- E. now rewrite (partners_unique rec right N Hrec). }
  rewrite P. split.
  - cbn. now rewrite IH1.
  - intros m [<-|Hm]; [discriminate | now apply IH2].
Qed.

(** X11.  In both enrichments every row that passed the filter finds its
    domain in [unique_domains]: whatever IPs were assigned there, the left
    merge returns exactly those rows, each once and in order, and none of
    them with a missing [ipaddress], so that the [fillna('NA')] that
    follows changes nothing. *)
Theorem merge_finds_every_row
        (df : list Row) (ips : list string) (recs : list DomainRecord) :
  assign_ipaddress
    (unique (map domain
               (where_domain_ne "NA"
                  (assign_domain Flattener.extract_domain df)))) ips
  = ([], Py.Ok recs) ->
  map merged_row
      (merge_left
         (where_domain_ne "NA" (assign_domain Flattener.extract_domain df))
         recs)
  = where_domain_ne "NA" (assign_domain Flattener.extract_domain df)
  /\ (forall m,
         In m (merge_left
                 (where_domain_ne "NA"
                    (assign_domain Flattener.extract_domain df))
                 recs) ->
         merged_ip m <> None).
Proof.
  intros A. apply assign_ipaddress_keys in A.
  apply merge_left_complete.
  - rewrite A. apply unique_NoDup.
  - intros l Hl. rewrite A. apply unique_In. now apply in_map.
Qed.

Lemma merge_finds_every_row_witness :
  map merged_row
      (merge_left
         (where_domain_ne "NA"
            (assign_domain Flattener.extract_domain Scenario.rows))
         [mkDomainRecord "a.test" "9.9.9.9"])
  = where_domain_ne "NA"
      (assign_domain Flattener.extract_domain Scenario.rows).
Proof.
  apply (merge_finds_every_row Scenario.rows ["9.9.9.9"]
           [mkDomainRecord "a.test" "9.9.9.9"]).
  reflexivity.
Defined.

Lemma Permutation_filter {A : Type} (f : A -> bool) (l l' : list A) :
  Permutation l l' -> Permutation (filter f l) (filter f l').
Proof.
  induction 1 as [|x l l' P IH|x y l|l l' l'' P1 IH1 P2 IH2]; simpl.
  - constructor.
  - destruct (f x); [now constructor | exact IH].
  - destruct (f x), (f y); try reflexivity. apply perm_swap.
  - now transitivity (filter f l').
Qed.

Lemma Permutation_unique (l l' : list string) :
  Permutation l l' -> Permutation (unique l) (unique l').
Proof.
  intros P. apply NoDup_Permutation; try apply unique_NoDup.
  intros x. rewrite !unique_In. split; apply Permutation_in;
    [exact P | now apply Permutation_sym].
Qed.

(** X12.  Reordering the rows of the table reorders the rows of the
    result and the lookups made, and changes nothing else, in both
    files. *)
Theorem reordering_rows
        (gethostbyname : string -> Py.result string)
        (gethostbyname2 : string -> Py.result Flattener2.host_result)
        (df df' : list Row) (num_workers : Z) :
  (0 < num_workers)%Z -> handled gethostbyname (row_domains df) ->
  Permutation df df' ->
  (exists out out',
      snd (Flattener.parallelize_domain_ip gethostbyname df num_workers)
      = Py.Ok out /\
      snd (Flattener.parallelize_domain_ip gethostbyname df' num_workers)
      = Py.Ok out' /\
      Permutation out out')
  /\ (exists out out',
      snd (Flattener2.parallelize_domain_ip gethostbyname2 df) = Py.Ok out /\
      snd (Flattener2.parallelize_domain_ip gethostbyname2 df') = Py.Ok out' /\
      Permutation out out')
  /\ Permutation
       (fst (Flattener.parallelize_domain_ip gethostbyname df num_workers))
       (fst (Flattener.parallelize_domain_ip gethostbyname df' num_workers))
  /\ Permutation
       (fst (Flattener2.parallelize_domain_ip gethostbyname2 df))
       (fst (Flattener2.parallelize_domain_ip gethostbyname2 df')).
Proof.
  intros Hn H P.
  assert (PD : Permutation (row_domains df) (row_domains df')).
  { unfold row_domains. now apply Permutation_map, Permutation_filter. }
  assert (H' : handled gethostbyname (row_domains df')).
  { intros d e Hd. apply H.
    apply (Permutation_in _ (Permutation_sym PD) Hd). }
  assert (PE : forall f, Permutation (enrich f df) (enrich f df')).
  { intros f. unfold enrich. now apply Permutation_map, Permutation_filter. }
  rewrite !parallelize_async.
  rewrite (parallelize_threadpool _ _ _ Hn H),
          (parallelize_threadpool _ _ _ Hn H').
  cbn [fst snd]. repeat split; try (now apply Permutation_unique).
  - exists (enrich (answer gethostbyname) df),
           (enrich (answer gethostbyname) df'). auto.
  - exists (enrich (answer_async gethostbyname2) df),
           (enrich (answer_async gethostbyname2) df'). auto.
Qed.

Lemma reordering_rows_witness :
  Permutation
    (fst (Flattener.parallelize_domain_ip
            Scenario.gethostbyname
            (Scenario.rows ++ [mkRow "http://b.test/" []]) 5))
    (fst (Flattener.parallelize_domain_ip
            Scenario.gethostbyname
            (mkRow "http://b.test/" [] :: Scenario.rows) 5)).
Proof.
  apply (reordering_rows
           Scenario.gethostbyname Scenario.gethostbyname_async
           (Scenario.rows ++ [mkRow "http://b.test/" []])
           (mkRow "http://b.test/" [] :: Scenario.rows) 5
           eq_refl (handled_scenario _)).
  apply Permutation_sym, Permutation_cons_append.
Defined.

End EnrichmentStructure.

(* ================================================================== *)
(** * Grouping, counting and the first rows of a sorted table *)

Section GroupFacts.
Import Summary.

Context {K : Type} (eqb : K -> K -> bool).
Hypothesis eqb_spec : forall x y : K, reflect (x = y) (eqb x y).

Lemma existsb_key_In (x : K) (l : list K) :
  existsb (eqb x) l = true <-> In x l.
Proof.
  rewrite existsb_exists. split.
  - intros (y & Hy & E). destruct (eqb_spec x y); [now subst | discriminate].
  - intros H. exists x. split; [exact H|].
    destruct (eqb_spec x x); [reflexivity | congruence].
Qed.

Lemma distinct_from_In (xs acc : list K) (x : K) :
  In x (fold_left
          (fun seen y => if existsb (eqb y) seen then seen else seen ++ [y])
          xs acc)
  <-> In x acc \/ In x xs.
Proof.
  revert acc. induction xs as [|y xs IH]; intros acc; simpl; [tauto|].
  rewrite IH. destruct (existsb (eqb y) acc) eqn:E.
  - apply existsb_key_In in E. split; [tauto|].
    intros [H|[H|H]]; subst; auto.
  - rewrite in_app_iff. simpl. tauto.
Qed.

Lemma distinct_from_NoDup (xs acc : list K) :
  NoDup acc ->
  NoDup (fold_left
           (fun seen y => if existsb (eqb y) seen then seen else seen ++ [y])
           xs acc).
Proof.
  revert acc. induction xs as [|y xs IH]; intros acc H; simpl; [exact H|].
  apply IH. destruct (existsb (eqb y) acc) eqn:E; [exact H|].
  apply NoDup_app; [exact H | repeat constructor; intros [] |].
  intros a Ha [<-|[]]. apply existsb_key_In in Ha. congruence.
Qed.

Lemma distinct_In (xs : list K) (x : K) : In x (distinct eqb xs) <-> In x xs.
Proof. unfold distinct. rewrite distinct_from_In. simpl. tauto. Qed.

Lemma distinct_NoDup (xs : list K) : NoDup (distinct eqb xs).
Proof. unfold distinct. apply distinct_from_NoDup. constructor. Qed.

Lemma distinct_length (xs : list K) :
  List.length (distinct eqb xs) <= List.length xs.
Proof.
  apply NoDup_incl_length; [apply distinct_NoDup|].
  intros x Hx. now apply distinct_In.
Qed.

Lemma distinct_nonempty (xs : list K) :
  xs <> [] -> 1 <= List.length (distinct eqb xs).
Proof.
  destruct xs as [|x xs]; [congruence|]. intros _.
  assert (H : In x (distinct eqb (x :: xs))) by (apply distinct_In; now left).
  destruct (distinct eqb (x :: xs)); [contradiction | simpl; lia].
Qed.

Lemma insert_key_perm (leb : K -> K -> bool) (k : K) (ks : list K) :
  Permutation (insert_key leb k ks) (k :: ks).
Proof.
  induction ks as [|h t IH]; simpl; [reflexivity|].
  destruct (leb k h); [reflexivity|].
  rewrite IH. apply perm_swap.
Qed.

Lemma sort_keys_perm (leb : K -> K -> bool) (ks : list K) :
  Permutation (sort_keys leb ks) ks.
Proof.
  induction ks as [|k ks IH]; simpl; [reflexivity|].
  rewrite insert_key_perm. now constructor.
Qed.

Lemma in_present (col : list (option K)) (k : K) :
  In k (present col) <-> In (Some k) col.
Proof.
  unfold present. rewrite in_flat_map. split.
  - intros ([k'|] & H1 & H2); simpl in H2; [|contradiction].
    destruct H2 as [<-|[]]. exact H1.
  - intros H. exists (Some k). split; [exact H | now left].
Qed.

Variable leb : K -> K -> bool.

Lemma group_keys {A : Type} (key : A -> option K) (df : list A) :
  map fst (groupby eqb leb key df)
  = sort_keys leb (distinct eqb (present (map key df))).
Proof. unfold groupby. rewrite map_map. apply map_id. Qed.

Lemma group_keys_NoDup {A : Type} (key : A -> option K) (df : list A) :
  NoDup (map fst (groupby eqb leb key df)).
Proof.
  rewrite group_keys.
  apply (Permutation_NoDup (Permutation_sym (sort_keys_perm _ _))).
  apply distinct_NoDup.
Qed.

Lemma in_group_keys {A : Type} (key : A -> option K) (df : list A) (k : K) :
  In k (map fst (groupby eqb leb key df)) <->
  exists r, In r df /\ key r = Some k.
Proof.
  rewrite group_keys.
  assert (S : In k (sort_keys leb (distinct eqb (present (map key df))))
              <-> In k (distinct eqb (present (map key df)))).
  { split; apply Permutation_in;
      [apply sort_keys_perm | apply Permutation_sym, sort_keys_perm]. }
  rewrite S, distinct_In, in_present, in_map_iff.
  split; intros (r & H1 & H2); exists r; auto.
Qed.

Lemma in_groupby {A : Type} (key : A -> option K) (df : list A)
      (g : K * list A) :
  In g (groupby eqb leb key df) ->
  snd g = filter (has_key eqb key (fst g)) df /\
  (exists r, In r df /\ key r = Some (fst g)) /\
  1 <= List.length (snd g).
Proof.
  intros H.
  assert (Hk : In (fst g) (map fst (groupby eqb leb key df)))
    by now apply in_map.
  apply in_group_keys in Hk.
  unfold groupby in H. apply in_map_iff in H. destruct H as (k & <- & _).
  cbn [fst snd] in *. split; [reflexivity|]. split; [exact Hk|].
  destruct Hk as (r & Hr & E).
  assert (Hin : In r (filter (has_key eqb key k) df)).
  { apply filter_In. split; [exact Hr|]. unfold has_key. rewrite E.
    destruct (eqb_spec k k); [reflexivity | congruence]. }
  destruct (filter (has_key eqb key k) df); [contradiction | simpl; lia].
Qed.

Lemma list_sum_zero {B : Type} (l : list B) :
  list_sum (map (fun _ => 0) l) = 0.
Proof. induction l; simpl; auto. Qed.

Lemma list_sum_plus {B : Type} (f g : B -> nat) (l : list B) :
  list_sum (map (fun x => f x + g x) l)
  = list_sum (map f l) + list_sum (map g l).
Proof. induction l as [|x l IH]; simpl; [reflexivity | rewrite IH; lia]. Qed.

Lemma list_sum_indicator (k0 : K) (ks : list K) :
  NoDup ks -> In k0 ks ->
  list_sum (map (fun k => if eqb k0 k then 1 else 0) ks) = 1.
Proof.
  induction ks as [|k ks IH]; simpl; intros N H; [contradiction|].
  inversion N as [|? ? Hk N']; subst.
  destruct (eqb_spec k0 k) as [E|NE].
  - subst k.
    rewrite (map_ext_in _ (fun _ => 0)); [now rewrite list_sum_zero|].
    intros k' Hk'. destruct (eqb_spec k0 k'); [congruence | reflexivity].
  - destruct H as [H|H]; [congruence|]. now apply IH.
Qed.

Lemma group_sizes_sum_over {A : Type} (key : A -> option K) (df : list A)
      (ks : list K) :
  NoDup ks ->
  (forall r k, In r df -> key r = Some k -> In k ks) ->
  list_sum (map (fun k => List.length (filter (has_key eqb key k) df)) ks)
  = List.length (present (map key df)).
Proof.
  intros N. induction df as [|r df IH]; intros H.
  - simpl. apply list_sum_zero.
  - rewrite (map_ext _ (fun k => (if has_key eqb key k r then 1 else 0)
                                 + List.length (filter (has_key eqb key k) df))).
    2:{ intros k. simpl. destruct (has_key eqb key k r); reflexivity. }
    rewrite list_sum_plus, IH by (intros; eapply H; eauto; now right).
    unfold has_key at 1. simpl. unfold present at 2. simpl.
    fold (present (map key df)). rewrite length_app.
    destruct (key r) as [k0|] eqn:E.
    + rewrite list_sum_indicator; [reflexivity | exact N |].
      apply (H r k0); [now left | exact E].
    + rewrite list_sum_zero. reflexivity.
Qed.

Lemma group_sizes_sum {A : Type} (key : A -> option K) (df : list A) :
  list_sum (map (fun g => List.length (snd g)) (groupby eqb leb key df))
  = List.length (present (map key df)).
Proof.
  unfold groupby. rewrite map_map. cbn [snd].
  apply group_sizes_sum_over.
  - rewrite <- (group_keys key df). apply group_keys_NoDup.
  - intros r k Hr E. rewrite <- (group_keys key df).
    apply in_group_keys. now exists r.
Qed.

End GroupFacts.

Section SortedFacts.

Lemma sorted_across_app {A : Type} (R : A -> A -> Prop) (l1 l2 : list A) :
  StronglySorted R (l1 ++ l2) ->
  StronglySorted R l1 /\ forall x y, In x l1 -> In y l2 -> R x y.
Proof.
  induction l1 as [|a l1 IH]; simpl; intros H.
  - split; [constructor | intros x y []].
  - inversion H as [|? ? S F]; subst. destruct (IH S) as [S1 C].
    apply Forall_app in F. destruct F as [F1 F2]. split.
    + now constructor.
    + intros x y [<-|Hx] Hy; [|now apply C].
      rewrite Forall_forall in F2. now apply F2.
Qed.

(** The first [n] rows of a table sorted by descending [key]. *)
Lemma head_of_sorted {A : Type}
      (sort_values : forall A : Type, (A -> nat) -> list A -> list A)
      (key : A -> nat) (n : nat) (l : list A) :
  Summary.sorts_descending sort_values ->
  List.length (firstn n (sort_values A key l)) <= n
  /\ (forall t, In t (firstn n (sort_values A key l)) -> In t l)
  /\ StronglySorted (fun a b => key b <= key a)
                    (firstn n (sort_values A key l))
  /\ (forall x t, In x l -> ~ In x (firstn n (sort_values A key l)) ->
                  In t (firstn n (sort_values A key l)) -> key x <= key t)
  /\ (List.length l <= n -> Permutation (firstn n (sort_values A key l)) l).
Proof.
  intros C. destruct (C A key l) as [P S].
  rewrite <- (firstn_skipn n (sort_values A key l)) in S.
  apply sorted_across_app in S. destruct S as [S1 S2].
  split; [apply firstn_le_length|].
  split.
  { intros t Ht. apply (Permutation_in _ P).
    rewrite <- (firstn_skipn n). apply in_or_app. now left. }
  split; [exact S1|]. split.
  - intros x t Hx Nx Ht. apply (S2 t x Ht).
    apply (Permutation_in _ (Permutation_sym P)) in Hx.
    rewrite <- (firstn_skipn n) in Hx. apply in_app_or in Hx.
    destruct Hx; [contradiction | assumption].
  - intros L. rewrite firstn_all2; [exact P|].
    now rewrite (Permutation_length P).
Qed.

Lemma head_keys_NoDup {A B : Type}
      (sort_values : forall A : Type, (A -> nat) -> list A -> list A)
      (key : A -> nat) (f : A -> B) (n : nat) (l : list A) :
  Summary.sorts_descending sort_values ->
  NoDup (map f l) -> NoDup (map f (firstn n (sort_values A key l))).
Proof.
  intros C N. destruct (C A key l) as [P _].
  apply (Permutation_map f) in P.
  apply (Permutation_NoDup (Permutation_sym P)) in N.
  rewrite <- (firstn_skipn n (sort_values A key l)), map_app in N.
  now apply NoDup_app_remove_r in N.
Qed.

Lemma insert_key_sorted (k : Z) (ks : list Z) :
  StronglySorted Z.le ks ->
  StronglySorted Z.le (Summary.insert_key Z.leb k ks).
Proof.
  induction 1 as [|h t S IH F]; simpl.
  - repeat constructor.
  - destruct (Z.leb_spec k h) as [L|L].
    + constructor; [now constructor|].
      constructor; [exact L|].
      rewrite Forall_forall in *. intros x Hx. specialize (F x Hx). lia.
    + constructor; [exact IH|].
      apply (Permutation_Forall
               (Permutation_sym (insert_key_perm Z.leb k t))).
      constructor; [lia | exact F].
Qed.

Lemma sort_keys_sorted (ks : list Z) :
  StronglySorted Z.le (Summary.sort_keys Z.leb ks).
Proof.
  induction ks as [|k ks IH]; simpl; [constructor|].
  now apply insert_key_sorted.
Qed.

Lemma sorted_distinct_increasing (ks : list Z) :
  StronglySorted Z.le ks -> NoDup ks -> StronglySorted Z.lt ks.
Proof.
  induction 1 as [|h t S IH F]; intros N; [constructor|].
  inversion N as [|? ? Hh N']; subst.
  constructor; [now apply IH|].
  rewrite Forall_forall in *. intros x Hx. specialize (F x Hx).
  assert (x <> h) by (intros ->; contradiction). lia.
Qed.

End SortedFacts.

(* ================================================================== *)
(** * summarize_data *)

Section SummarizeData.
Import Summary.

Lemma insert_descending_perm {A : Type} (key : A -> nat) (x : A)
      (l : list A) :
  Permutation (insert_descending key x l) (x :: l).
Proof.
  induction l as [|y t IH]; simpl; [reflexivity|].
  destruct (Nat.ltb (key y) (key x)); [reflexivity|].
  rewrite IH. apply perm_swap.
Qed.

Lemma insert_descending_sorted {A : Type} (key : A -> nat) (x : A)
      (l : list A) :
  StronglySorted (fun a b => key b <= key a) l ->
  StronglySorted (fun a b => key b <= key a) (insert_descending key x l).
Proof.
  induction 1 as [|y t S IH F]; simpl.
  - repeat constructor.
  - destruct (Nat.ltb_spec (key y) (key x)) as [L|L].
    + constructor; [now constructor|].
      constructor; [lia|].
      rewrite Forall_forall in *. intros b Hb. specialize (F b Hb).
      simpl in F. lia.
    + constructor; [exact IH|].
      apply (Permutation_Forall
               (Permutation_sym (insert_descending_perm key x t))).
      constructor; [exact L | exact F].
Qed.

Lemma stable_sort_descending_sorts : sorts_descending stable_sort_descending.
Proof.
  intros A key l. unfold stable_sort_descending.
  induction l as [|x l [P S]]; simpl.
  - split; constructor.
  - split.
    + rewrite insert_descending_perm. now constructor.
    + now apply insert_descending_sorted.
Qed.

Lemma most_frequent_fold (l t : list string) (best : string) :
  let step := fun best y =>
    if Nat.ltb (count_occ string_dec l best) (count_occ string_dec l y)
    then y else best in
  In (fold_left step t best) (best :: t) /\
  count_occ string_dec l best
  <= count_occ string_dec l (fold_left step t best) /\
  forall y, In y t ->
            count_occ string_dec l y
            <= count_occ string_dec l (fold_left step t best).
Proof.
  intros step. revert best. induction t as [|y t IH]; intros best; simpl.
  - split; [now left|]. split; [lia | intros y []].
  - destruct (IH (step best y)) as (I & C & F).
    assert (Cb : count_occ string_dec l best
                 <= count_occ string_dec l (step best y) /\
                 count_occ string_dec l y
                 <= count_occ string_dec l (step best y)).
    { unfold step.
      destruct (Nat.ltb_spec (count_occ string_dec l best)
                             (count_occ string_dec l y)); lia. }
    split; [|split].
    + destruct I as [I|I]; [|now right; right].
      rewrite <- I. unfold step.
      destruct (Nat.ltb _ _); [right; now left | now left].
    + lia.
    + intros z [<-|Hz]; [lia | now apply F].
Qed.

Lemma first_most_frequent_picks : picks_most_frequent first_most_frequent.
Proof.
  intros [|x t] Hne; [congruence|].
  unfold first_most_frequent.
  destruct (most_frequent_fold (x :: t) t x) as (I & C & F).
  split; [exact I|].
  intros z.
  destruct (in_dec string_dec z (x :: t)) as [[<-|Hz]|N].
  - exact C.
  - now apply F.
  - rewrite (proj1 (count_occ_not_In string_dec (x :: t) z) N). lia.
Qed.

Lemma calendar_keeps_length : keeps_length calendar.
Proof.
  intros column. induction column as [|v column IH]; intros dates H.
  - injection H as <-. reflexivity.
  - simpl in H.
    destruct (match v with Some s => calendar_date s | None => Py.Ok None end)
      as [d|e]; [|discriminate].
    destruct (calendar column) as [ds|e]; [|discriminate].
    injection H as <-. simpl. f_equal. now apply IH.
Qed.

Lemma present_all {A B : Type} (f : A -> B) (l : list A) :
  present (map (fun r => Some (f r)) l) = map f l.
Proof. induction l as [|x l IH]; simpl; [reflexivity | now rewrite IH]. Qed.

Lemma rows_of_domain_group (d : string) (df : list Notice) :
  List.length (filter (has_key String.eqb (fun r => Some (domain r)) d) df)
  = rows_of_domain d df.
Proof. reflexivity. Qed.

Lemma nunique_bounds (xs : list string) :
  xs <> [] -> 1 <= nunique xs <= List.length xs.
Proof.
  intros H. unfold nunique. split.
  - now apply (distinct_nonempty String.eqb String.eqb_spec).
  - apply (distinct_length String.eqb String.eqb_spec).
Qed.

Lemma map_nonempty {A B : Type} (f : A -> B) (l : list A) :
  1 <= List.length l -> map f l <> [].
Proof. destruct l; simpl; [lia | discriminate]. Qed.

(** X13.  [top_domains] of [summarize_data], for any sorting method: at
    most ten rows, one per domain, by descending notice count; the count of
    a listed domain is the number of rows of the table with that domain;
    its number of distinct copyrighted URLs is between 1 and that count;
    every domain left out has at most as many rows as each listed one; and
    when the table has at most ten domains all are listed and the counts
    add up to the number of rows. *)
Theorem top_domains_are_the_most_reported
        (sort_values : forall A : Type, (A -> nat) -> list A -> list A)
        (df : list Notice) :
  sorts_descending sort_values ->
  List.length (top_domains sort_values df) <= 10
  /\ NoDup (map summary_domain (top_domains sort_values df))
  /\ StronglySorted
       (fun a b => domain_notice_count b <= domain_notice_count a)
       (top_domains sort_values df)
  /\ (forall t, In t (top_domains sort_values df) ->
        domain_notice_count t = rows_of_domain (summary_domain t) df /\
        1 <= unique_copyrighted_urls t <= domain_notice_count t)
  /\ (forall r t,
        In r df ->
        ~ In (domain r) (map summary_domain (top_domains sort_values df)) ->
        In t (top_domains sort_values df) ->
        rows_of_domain (domain r) df <= domain_notice_count t)
  /\ (List.length (distinct String.eqb (map domain df)) <= 10 ->
      (forall r, In r df ->
         In (domain r) (map summary_domain (top_domains sort_values df))) /\
      list_sum (map domain_notice_count (top_domains sort_values df))
      = List.length df).
Proof.
  intros C. unfold top_domains.
  set (G := groupby String.eqb String.leb (fun r => Some (domain r)) df).
  set (mk := fun g : string * list Notice =>
               mkDomainSummary (fst g) (List.length (snd g))
                 (nunique (map copyrighted_urls (snd g)))).
  assert (Keys : map summary_domain (map mk G) = map fst G).
  { rewrite map_map. reflexivity. }
  assert (InL : forall t, In t (map mk G) ->
            domain_notice_count t = rows_of_domain (summary_domain t) df /\
            1 <= unique_copyrighted_urls t <= domain_notice_count t).
  { intros t Ht. apply in_map_iff in Ht. destruct Ht as (g & <- & Hg).
    destruct (in_groupby String.eqb String.eqb_spec String.leb _ _ _ Hg)
      as (Eg & _ & Len).
    cbn [mk domain_notice_count summary_domain unique_copyrighted_urls].
    split.
    - rewrite Eg. reflexivity.
    - rewrite <- (length_map copyrighted_urls (snd g)).
      apply nunique_bounds. rewrite <- (length_map copyrighted_urls) in Len.
      destruct (map copyrighted_urls (snd g)); simpl in *;
        [lia | discriminate]. }
  assert (Listed : forall r, In r df ->
            exists x, In x (map mk G) /\ summary_domain x = domain r).
  { intros r Hr.
    assert (Hk : In (domain r) (map fst G)).
    { apply (in_group_keys String.eqb String.eqb_spec). now exists r. }
    rewrite <- Keys in Hk. apply in_map_iff in Hk.
    destruct Hk as (x & E & Hx). now exists x. }
  destruct (head_of_sorted sort_values domain_notice_count 10 (map mk G) C)
    as (H1 & H2 & H3 & H4 & H5).
  split; [exact H1|]. split.
  { apply head_keys_NoDup; [exact C|]. rewrite Keys.
    apply (group_keys_NoDup String.eqb String.eqb_spec). }
  split; [exact H3|]. split.
  { intros t Ht. apply InL. now apply H2. }
  split.
  - intros r t Hr N Ht.
    destruct (Listed r Hr) as (x & Hx & E).
    assert (Nx : ~ In x (firstn 10 (sort_values _ domain_notice_count
                                                (map mk G)))).
    { intros D. apply N. rewrite <- E. now apply in_map. }
    pose proof (H4 x t Hx Nx Ht) as Le.
    destruct (InL x Hx) as [Ex _]. rewrite Ex, E in Le. exact Le.
  - intros Few.
    assert (Len : List.length (map mk G) <= 10).
    { rewrite length_map. unfold G.
      rewrite <- (length_map fst),
        (group_keys String.eqb String.leb),
        (Permutation_length (sort_keys_perm _ _)), present_all.
      exact Few. }
    pose proof (H5 Len) as P. split.
    + intros r Hr. destruct (Listed r Hr) as (x & Hx & <-).
      apply in_map. apply (Permutation_in _ (Permutation_sym P) Hx).
    + rewrite (Permutation_list_sum (Permutation_map domain_notice_count P)).
      rewrite map_map. cbn [mk domain_notice_count].
      unfold G.
      rewrite (group_sizes_sum String.eqb String.eqb_spec), present_all.
      apply length_map.
Qed.


Lemma top_domains_are_the_most_reported_witness :
  List.length (top_domains stable_sort_descending notices) <= 10
  /\ NoDup (map summary_domain (top_domains stable_sort_descending notices)).
Proof.
  destruct (top_domains_are_the_most_reported
              stable_sort_descending notices stable_sort_descending_sorts)
    as (L & N & _).
  split; [exact L | exact N].
Defined.

(** X14.  [top_copyright_holders] of [summarize_data] on a table with a
    holder, for any sorting method and any choice among equally frequent
    domains: at most twenty
    rows, one per holder, by descending notice count; the count of a listed
    holder is the number of rows with that [principal_name]; its
    [top_infringing_domain] is a domain of those rows that no other domain
    of those rows outnumbers; its number of distinct domains is between 1
    and the count; and every holder left out has at most as many rows as
    each listed one.  Rows without [principal_name] are counted for no
    holder. *)
Theorem top_copyright_holders_are_the_most_active
        (sort_values : forall A : Type, (A -> nat) -> list A -> list A)
        (idxmax_of_counts : list string -> string)
        (df : list Notice) :
  sorts_descending sort_values -> picks_most_frequent idxmax_of_counts ->
  has_holder df ->
  List.length (top_copyright_holders sort_values idxmax_of_counts df) <= 20
  /\ NoDup (map holder
               (top_copyright_holders sort_values idxmax_of_counts df))
  /\ StronglySorted
       (fun a b => holder_notice_count b <= holder_notice_count a)
       (top_copyright_holders sort_values idxmax_of_counts df)
  /\ (forall t,
        In t (top_copyright_holders sort_values idxmax_of_counts df) ->
        holder_notice_count t = List.length (rows_of_holder (holder t) df) /\
        1 <= holder_notice_count t /\
        In (top_infringing_domain t)
           (map domain (rows_of_holder (holder t) df)) /\
        (forall d,
            count_occ string_dec
              (map domain (rows_of_holder (holder t) df)) d
            <= count_occ string_dec
                 (map domain (rows_of_holder (holder t) df))
                 (top_infringing_domain t)) /\
        1 <= unique_infringing_domains t <= holder_notice_count t)
  /\ (forall r p t,
        In r df -> principal_name r = Some p ->
        ~ In p (map holder
                  (top_copyright_holders sort_values idxmax_of_counts df)) ->
        In t (top_copyright_holders sort_values idxmax_of_counts df) ->
        List.length (rows_of_holder p df) <= holder_notice_count t).
Proof.
  intros C M _. unfold top_copyright_holders.
  set (G := groupby String.eqb String.leb principal_name df).
  set (mk := fun g : string * list Notice =>
               mkHolderSummary (fst g) (List.length (snd g))
                 (idxmax_of_counts (map domain (snd g)))
                 (nunique (map domain (snd g)))).
  assert (Keys : map holder (map mk G) = map fst G).
  { rewrite map_map. reflexivity. }
  assert (InL : forall t, In t (map mk G) ->
        holder_notice_count t = List.length (rows_of_holder (holder t) df) /\
        1 <= holder_notice_count t /\
        In (top_infringing_domain t)
           (map domain (rows_of_holder (holder t) df)) /\
        (forall d,
            count_occ string_dec
              (map domain (rows_of_holder (holder t) df)) d
            <= count_occ string_dec
                 (map domain (rows_of_holder (holder t) df))
                 (top_infringing_domain t)) /\
        1 <= unique_infringing_domains t <= holder_notice_count t).
  { intros t Ht. apply in_map_iff in Ht. destruct Ht as (g & <- & Hg).
    destruct (in_groupby String.eqb String.eqb_spec String.leb _ _ _ Hg)
      as (Eg & _ & Len).
    cbn [mk holder_notice_count holder top_infringing_domain
            unique_infringing_domains].
    unfold rows_of_holder. rewrite <- Eg.
    assert (Ne : map domain (snd g) <> []) by now apply map_nonempty.
    destruct (M _ Ne) as [I Cn].
    repeat split; auto.
    - now apply (distinct_nonempty String.eqb String.eqb_spec).
    - rewrite <- (length_map domain (snd g)).
      apply (distinct_length String.eqb String.eqb_spec). }
  destruct (head_of_sorted sort_values holder_notice_count 20 (map mk G) C)
    as (H1 & H2 & H3 & H4 & _).
  split; [exact H1|]. split.
  { apply head_keys_NoDup; [exact C|]. rewrite Keys.
    apply (group_keys_NoDup String.eqb String.eqb_spec). }
  split; [exact H3|]. split.
  { intros t Ht. apply InL. now apply H2. }
  intros r p t Hr Ep N Ht.
  assert (Hk : In p (map fst G)).
  { apply (in_group_keys String.eqb String.eqb_spec). now exists r. }
  rewrite <- Keys in Hk. apply in_map_iff in Hk.
  destruct Hk as (x & E & Hx).
  assert (Nx : ~ In x (firstn 20 (sort_values _ holder_notice_count
                                              (map mk G)))).
  { intros D. apply N. rewrite <- E. now apply in_map. }
  pose proof (H4 x t Hx Nx Ht) as Le.
  destruct (InL x Hx) as [Ex _]. rewrite Ex, E in Le. exact Le.
Qed.

Lemma notices_have_holder : has_holder notices.
Proof.
  exists (mkNotice "a.test" "http://c/1" (Some "2024-01-02") (Some "P")), "P".
  split; [now left | reflexivity].
Qed.

Lemma top_copyright_holders_are_the_most_active_witness :
  List.length
    (top_copyright_holders stable_sort_descending first_most_frequent notices)
  <= 20
  /\ NoDup (map holder
               (top_copyright_holders
                  stable_sort_descending first_most_frequent notices)).
Proof.
  destruct (top_copyright_holders_are_the_most_active
              stable_sort_descending first_most_frequent notices
              stable_sort_descending_sorts first_most_frequent_picks
              notices_have_holder)
    as (L & N & _).
  split; [exact L | exact N].
Defined.

Lemma dates_of_combine (df : list Notice) (dates : list (option Z)) :
  List.length dates = List.length df ->
  map snd (combine df dates) = dates.
Proof.
  revert dates. induction df as [|r df IH]; intros [|d dates] H;
    simpl in *; try reflexivity; try discriminate.
  f_equal. apply IH. now injection H.
Qed.

Lemma group_of_date (df : list Notice) (dates : list (option Z)) (k : Z) :
  List.length dates = List.length df ->
  List.length (filter (has_key Z.eqb snd k) (combine df dates))
  = List.length (filter (has_key Z.eqb (fun v => v) k) dates).
Proof.
  revert dates. induction df as [|r df IH]; intros [|d dates] H;
    simpl in *; try reflexivity; try discriminate.
  change (has_key Z.eqb snd k (r, d))
    with (has_key Z.eqb (fun v : option Z => v) k d).
  destruct (has_key Z.eqb (fun v : option Z => v) k d); cbn [List.length];
    rewrite IH by (now injection H); reflexivity.
Qed.

(** X15.  On a table with a holder, [summarize_data] raises exactly when
    [pd.to_datetime] raises on the [date_sent] column, with its exception,
    and then returns none of the three tables.  Otherwise [time_distribution] has one row per date
    that occurs, by strictly increasing date; the count of a date is the
    number of rows with that date; rows whose date is NaT are counted
    nowhere, so that the counts add up to the number of rows with a
    date. *)
Theorem time_distribution_counts_rows_by_date
        (sort_values : forall A : Type, (A -> nat) -> list A -> list A)
        (idxmax_of_counts : list string -> string)
        (to_datetime : list (option string) -> Py.result (list (option Z)))
        (df : list Notice) :
  keeps_length to_datetime -> has_holder df ->
  match to_datetime (map date_sent df) with
  | Py.Raise e =>
      summarize_data sort_values idxmax_of_counts to_datetime df = Py.Raise e
  | Py.Ok dates =>
      summarize_data sort_values idxmax_of_counts to_datetime df
      = Py.Ok (top_domains sort_values df,
               time_distribution df dates,
               top_copyright_holders sort_values idxmax_of_counts df)
      /\ StronglySorted Z.lt (map date (time_distribution df dates))
      /\ (forall t, In t (time_distribution df dates) ->
            date_notice_count t
            = List.length (filter (has_key Z.eqb (fun v => v) (date t)) dates)
            /\ 1 <= date_notice_count t)
      /\ (forall d, In (Some d) dates ->
                    In d (map date (time_distribution df dates)))
      /\ list_sum (map date_notice_count (time_distribution df dates))
         = List.length (present dates)
  end.
Proof.
  intros KL _. unfold summarize_data.
  destruct (to_datetime (map date_sent df)) as [dates|e] eqn:E;
    [|reflexivity].
  pose proof (KL _ _ E) as Len. rewrite length_map in Len.
  split; [reflexivity|].
  unfold time_distribution.
  set (G := groupby Z.eqb Z.leb snd (combine df dates)).
  assert (Keys : map date (map (fun g => mkDateCount (fst g)
                                            (List.length (snd g))) G)
                 = map fst G).
  { rewrite map_map. reflexivity. }
  rewrite Keys. split; [|split; [|split]].
  - apply sorted_distinct_increasing.
    + unfold G. rewrite group_keys. apply sort_keys_sorted.
    + apply (group_keys_NoDup Z.eqb Z.eqb_spec).
  - intros t Ht. apply in_map_iff in Ht. destruct Ht as (g & <- & Hg).
    destruct (in_groupby Z.eqb Z.eqb_spec Z.leb _ _ _ Hg) as (Eg & _ & L1).
    cbn [date date_notice_count]. split; [|exact L1].
    rewrite Eg. now apply group_of_date.
  - intros d Hd. apply (in_group_keys Z.eqb Z.eqb_spec).
    rewrite <- (dates_of_combine df dates Len) in Hd.
    apply in_map_iff in Hd. destruct Hd as (r & Er & Hr). now exists r.
  - rewrite map_map. cbn [date_notice_count]. unfold G.
    rewrite (group_sizes_sum Z.eqb Z.eqb_spec).
    now rewrite (dates_of_combine df dates Len).
Qed.

Lemma time_distribution_counts_rows_by_date_witness :
  list_sum
    (map date_notice_count
       (time_distribution notices
          [Some 20240102%Z; Some 20240101%Z; Some 20240102%Z; None]))
  = 3.
Proof.
  exact (proj2 (proj2 (proj2 (proj2
           (time_distribution_counts_rows_by_date
              stable_sort_descending first_most_frequent calendar notices
              calendar_keeps_length notices_have_holder))))).
Defined.

End SummarizeData.
